(** * Customer_App.py: a shallow embedding of the Streamlit chat script

    The script is re-executed from top to bottom on every page load or widget
    interaction.  One execution reads its surroundings (secret store, process
    environment, URL query parameters, the chat input widget, the corpus
    directory and the language-model service), mutates two stores that outlive
    it (the [st.cache_resource] store of the process and the
    [st.session_state] of the browser session) and draws widgets.

    The surroundings of one execution are a [World]; the stores are a [State];
    the script is a computation in a small monad that threads the state,
    propagates Python exceptions and records the calls it makes, in order. *)

From Stdlib Require Import QArith_base.
From stdpp Require Import base option list strings gmap.

Local Open Scope string_scope.
Local Open Scope list_scope.

(** ** Exceptions and results *)

(** The classes the script names in its [except] clause, and every other
    class (one that is neither of the two nor derived from them). *)
Inductive exn : Type :=
| KeyError
| FileNotFoundError
| OtherException (cls : string).

Inductive result (A : Type) : Type :=
| Ok (a : A)
| Raise (e : exn).
Arguments Ok {A} a.
Arguments Raise {A} e.

(** ** Data *)

Inductive Role : Type := assistant | user.

(** A message of the transcript: [{"role": ..., "content": ...}]. *)
Record ChatTurn : Type := { role : Role; content : string }.

Definition Document : Type := string.

Record ChatGroq : Type :=
  { api_key : option string; model_name : string; temperature : Q }.

Record LangchainLLM : Type := { llm : ChatGroq }.

Record VectorStoreIndex : Type := { indexed : list Document }.

Record QueryEngine : Type := { index : VectorStoreIndex; streaming : bool }.

(** What [query_engine.query(prompt)] hands back: a generator that yields
    finitely many text fragments and then either stops or raises. *)
Record StreamingResponse : Type :=
  { response_gen : list string; gen_raises : option exn }.

(** ** The surroundings of one execution *)

Record World : Type := {
  secrets : string -> result string;        (* st.secrets[name] *)
  environ : gmap string string;             (* os.environ after load_dotenv() *)
  query_params : gmap string string;        (* st.query_params *)
  chat_input : option string;               (* st.chat_input(...) *)
  load_data : string -> result (list Document);
  from_documents : list Document -> result VectorStoreIndex;
  query : QueryEngine -> string -> result StreamingResponse
}.

(** ** The stores that outlive one execution *)

Record State : Type := {
  resource_cache : option QueryEngine;          (* st.cache_resource, process wide *)
  Settings_llm : option LangchainLLM;           (* llama_index Settings.llm, process wide *)
  session_state : gmap string (list ChatTurn)   (* st.session_state, per session *)
}.

Definition set_resource_cache (c : option QueryEngine) (s : State) : State :=
  {| resource_cache := c; Settings_llm := Settings_llm s;
     session_state := session_state s |}.

Definition set_Settings_llm (l : option LangchainLLM) (s : State) : State :=
  {| resource_cache := resource_cache s; Settings_llm := l;
     session_state := session_state s |}.

Definition set_session_state (m : gmap string (list ChatTurn)) (s : State) : State :=
  {| resource_cache := resource_cache s; Settings_llm := Settings_llm s;
     session_state := m |}.

(** ** Observable calls, in program order *)

Inductive event : Type :=
| EvSecrets (name : string)
| EvGetenv (name : string)
| EvSetPageConfig (page_title : string)
| EvImage (path : string)
| EvTitle (text : string)
| EvCaption (text : string)
| EvError (msg : string)
| EvWarning (msg : string)
| EvCacheLookup
| EvLoadData (path : string)
| EvChatGroq (c : ChatGroq)
| EvFromDocuments (ds : list Document)
| EvAsQueryEngine (streaming : bool)
| EvChatMessage (r : Role)
| EvMarkdown (text : string)
| EvChatInput (placeholder : string)
| EvAppend (t : ChatTurn)
| EvSpinner (text : string)
| EvQuery (prompt : string)
| EvEmpty
| EvContainerMarkdown (text : string).

(** ** The monad of the script *)

Definition M (A : Type) : Type := State -> result A * State * list event.

#[global] Instance M_ret : MRet M := λ A a s, (Ok a, s, []).

#[global] Instance M_bind : MBind M := λ A B f m s,
  match m s with
  | (Ok a, s1, t1) => let '(r, s2, t2) := f a s1 in (r, s2, t1 ++ t2)
  | (Raise e, s1, t1) => (Raise e, s1, t1)
  end.

Definition raise {A : Type} (e : exn) : M A := λ s, (Raise e, s, []).

Definition lift {A : Type} (r : result A) : M A := λ s, (r, s, []).

Definition emit (e : event) : M unit := λ s, (Ok tt, s, [e]).

Definition get : M State := λ s, (Ok s, s, []).

Definition modify (f : State -> State) : M unit := λ s, (Ok tt, f s, []).

(** [try: body except ...: handler]; the handler decides which classes it
    catches and re-raises the others. *)
Definition try_except {A : Type} (body : M A) (handler : exn -> M A) : M A :=
  λ s, match body s with
       | (Ok a, s1, t1) => (Ok a, s1, t1)
       | (Raise e, s1, t1) => let '(r, s2, t2) := handler e s1 in (r, s2, t1 ++ t2)
       end.

(** Projections of the outcome of a computation. *)
Definition res_of {A : Type} (o : result A * State * list event) : result A := o.1.1.
Definition state_of {A : Type} (o : result A * State * list event) : State := o.1.2.
Definition trace_of {A : Type} (o : result A * State * list event) : list event := o.2.

(** ** Python truthiness of an [Optional[str]] *)

Definition truthy (v : option string) : bool :=
  match v with
  | None => false
  | Some s => negb (String.eqb s "")
  end.

(** ** Lines 15-18: resolving the credential *)

Definition st_secrets_getitem (w : World) (name : string) : M string :=
  emit (EvSecrets name);; lift (secrets w name).

Definition os_getenv (w : World) (name : string) : M (option string) :=
  emit (EvGetenv name);; mret (environ w !! name).

Definition resolve_GROQ_API_KEY (w : World) : M (option string) :=
  try_except
    (v ← st_secrets_getitem w "GROQ_API_KEY"; mret (Some v))
    (λ e, match e with
          | KeyError | FileNotFoundError => os_getenv w "GROQ_API_KEY"
          | OtherException _ => raise e
          end).

Definition DATA_PATH : string := "data".

(** ** Lines 24-31: page set-up *)

Definition page_setup : M unit :=
  emit (EvSetPageConfig "PragyanAI Chat Assistant");;
  emit (EvImage "PragyanAI_Transperent.png");;
  emit (EvTitle "🤖 PragyanAI Chat Assistant");;
  emit (EvCaption "Welcome! I'm an AI assistant powered by Groq and LlamaIndex.").

(** ** Lines 36-56: the cached RAG pipeline *)

(** The body of [load_query_engine], run on a cache miss. *)
Definition load_query_engine_body (w : World) (GROQ_API_KEY : option string)
  : M QueryEngine :=
  emit (EvLoadData DATA_PATH);;
  documents ← lift (load_data w DATA_PATH);
  let llm := {| api_key := GROQ_API_KEY; model_name := "llama3-8b-8192";
                temperature := 7 # 10 |} in
  emit (EvChatGroq llm);;
  modify (set_Settings_llm (Some {| llm := llm |}));;
  emit (EvFromDocuments documents);;
  index ← lift (from_documents w documents);
  emit (EvAsQueryEngine true);;
  mret {| index := index; streaming := true |}.

(** [@st.cache_resource] on a function without arguments: a stored value is
    returned without running the body; on a miss the body runs and its return
    value is stored; an exception of the body propagates and stores nothing. *)
Definition cache_resource (body : M QueryEngine) : M QueryEngine :=
  emit EvCacheLookup;;
  s ← get;
  match resource_cache s with
  | Some engine => mret engine
  | None =>
      engine ← body;
      modify (set_resource_cache (Some engine));;
      mret engine
  end.

Definition load_query_engine (w : World) (GROQ_API_KEY : option string)
  : M QueryEngine :=
  cache_resource (load_query_engine_body w GROQ_API_KEY).

(** ** Lines 71-101: the transcript and one turn *)

Definition greeting : ChatTurn :=
  {| role := assistant;
     content := "Hello! How can I assist you today based on our knowledge base?" |}.

(** [st.session_state.messages = l] *)
Definition set_messages (l : list ChatTurn) (s : State) : State :=
  set_session_state (<["messages" := l]> (session_state s)) s.

(** [if "messages" not in st.session_state: st.session_state.messages = [...]] *)
Definition init_messages : M unit :=
  s ← get;
  match session_state s !! "messages" with
  | None => modify (set_messages [greeting])
  | Some _ => mret tt
  end.

(** Reading [st.session_state.messages]; a missing attribute raises. *)
Definition get_messages : M (list ChatTurn) :=
  s ← get;
  match session_state s !! "messages" with
  | Some l => mret l
  | None => raise (OtherException "AttributeError")
  end.

(** [st.session_state.messages.append(t)]: the stored list itself grows. *)
Definition messages_append (t : ChatTurn) : M unit :=
  l ← get_messages;
  emit (EvAppend t);;
  modify (set_messages (l ++ [t])).

(** Lines 76-78. *)
Fixpoint display_messages (l : list ChatTurn) : M unit :=
  match l with
  | [] => mret tt
  | message :: rest =>
      emit (EvChatMessage (role message));;
      emit (EvMarkdown (content message));;
      display_messages rest
  end.

(** Lines 96-98: the loop over [streaming_response.response_gen]. *)
Fixpoint consume (gen : list string) (raises : option exn) (full_response : string)
  : M string :=
  match gen with
  | [] =>
      match raises with
      | None => mret full_response
      | Some e => raise e
      end
  | text :: rest =>
      let full_response := full_response +:+ text in
      emit (EvContainerMarkdown full_response);;
      consume rest raises full_response
  end.

(** Lines 83-101, run when the chat input returned a non-empty text. *)
Definition turn (w : World) (query_engine : QueryEngine) (prompt : string) : M unit :=
  messages_append {| role := user; content := prompt |};;
  emit (EvChatMessage user);;
  emit (EvMarkdown prompt);;
  emit (EvChatMessage assistant);;
  emit (EvSpinner "Thinking...");;
  emit (EvQuery prompt);;
  streaming_response ← lift (query w query_engine prompt);
  emit EvEmpty;;
  full_response ← consume (response_gen streaming_response)
                          (gen_raises streaming_response) "";
  messages_append {| role := assistant; content := full_response |}.

(** Lines 69-101: what runs once both gates are passed. *)
Definition chat (w : World) (GROQ_API_KEY : option string) : M unit :=
  query_engine ← load_query_engine w GROQ_API_KEY;
  init_messages;;
  messages ← get_messages;
  display_messages messages;;
  emit (EvChatInput "Ask me anything...");;
  match chat_input w with
  | Some prompt => if truthy (Some prompt) then turn w query_engine prompt else mret tt
  | None => mret tt
  end.

(** ** Lines 60-69: the two gates *)

Definition credential_missing_msg : string :=
  "GROQ_API_KEY is not set! Please add it to your Streamlit secrets or a local .env file.".

Definition access_denied_msg : string :=
  "Please access this chat through the unique link provided in your email.".

Inductive GateDecision : Type := Allowed | Denied.

(** ['session_id' not in st.query_params], as a decision. *)
Definition access_gate (params : gmap string string) : GateDecision :=
  match params !! "session_id" with
  | Some _ => Allowed
  | None => Denied
  end.

Definition app (w : World) (GROQ_API_KEY : option string) : M unit :=
  if negb (truthy GROQ_API_KEY)
  then emit (EvError credential_missing_msg)
  else
    match access_gate (query_params w) with
    | Denied => emit (EvWarning access_denied_msg)
    | Allowed => chat w GROQ_API_KEY
    end.

(** ** The whole script, one execution *)

Definition script (w : World) : M unit :=
  GROQ_API_KEY ← resolve_GROQ_API_KEY w;
  page_setup;;
  app w GROQ_API_KEY.

(** A session: the script executed once per world, the stores carried from one
    execution to the next; an exception ends an execution, not the session. *)
Fixpoint run_session (ws : list World) (s : State) : State :=
  match ws with
  | [] => s
  | w :: rest => run_session rest (state_of (script w s))
  end.

(** A fresh process with a fresh browser session. *)
Definition initial_state : State :=
  {| resource_cache := None; Settings_llm := None; session_state := ∅ |}.

(** ** Changing one field of a world *)

Definition with_environ (env : gmap string string) (w : World) : World :=
  {| secrets := secrets w; environ := env; query_params := query_params w;
     chat_input := chat_input w; load_data := load_data w;
     from_documents := from_documents w; query := query w |}.

Definition with_query_params (params : gmap string string) (w : World) : World :=
  {| secrets := secrets w; environ := environ w; query_params := params;
     chat_input := chat_input w; load_data := load_data w;
     from_documents := from_documents w; query := query w |}.

Definition with_chat_input (input : option string) (w : World) : World :=
  {| secrets := secrets w; environ := environ w; query_params := query_params w;
     chat_input := input; load_data := load_data w;
     from_documents := from_documents w; query := query w |}.

Definition with_secrets (lookup : string -> result string) (w : World) : World :=
  {| secrets := lookup; environ := environ w; query_params := query_params w;
     chat_input := chat_input w; load_data := load_data w;
     from_documents := from_documents w; query := query w |}.

(** ** Vocabulary of the statements *)

(** The four widgets of lines 24-31. *)
Definition page_events : list event :=
  [ EvSetPageConfig "PragyanAI Chat Assistant";
    EvImage "PragyanAI_Transperent.png";
    EvTitle "🤖 PragyanAI Chat Assistant";
    EvCaption "Welcome! I'm an AI assistant powered by Groq and LlamaIndex." ].

(** Calls that belong to the engine: the cache, the build steps, a query. *)
Definition engine_event (e : event) : bool :=
  match e with
  | EvCacheLookup | EvLoadData _ | EvChatGroq _ | EvFromDocuments _
  | EvAsQueryEngine _ | EvQuery _ => true
  | _ => false
  end.

(** Calls of the turn loop: drawing the transcript, the input, an append. *)
Definition turn_event (e : event) : bool :=
  match e with
  | EvChatMessage _ | EvMarkdown _ | EvChatInput _ | EvAppend _ | EvSpinner _
  | EvEmpty | EvContainerMarkdown _ => true
  | _ => false
  end.

Definition getenv_event (e : event) : bool :=
  match e with EvGetenv _ => true | _ => false end.

(** The events of a full build, for a key and the documents and index the
    world hands out. *)
Definition build_events (GROQ_API_KEY : option string) (documents : list Document)
  : list event :=
  [ EvLoadData DATA_PATH;
    EvChatGroq {| api_key := GROQ_API_KEY; model_name := "llama3-8b-8192";
                  temperature := 7 # 10 |};
    EvFromDocuments documents;
    EvAsQueryEngine true ].

(** In-order concatenation of the fragments of a stream. *)
Definition concat_fragments (fragments : list string) : string :=
  foldr String.append "" fragments.

(** What the response container shows after each fragment. *)
Fixpoint displayed (full_response : string) (fragments : list string) : list event :=
  match fragments with
  | [] => []
  | text :: rest =>
      EvContainerMarkdown (full_response +:+ text)
        :: displayed (full_response +:+ text) rest
  end.

(** The transcript stored in a state, if the session has one. *)
Definition messages (s : State) : option (list ChatTurn) :=
  session_state s !! "messages".

Definition user_turn (prompt : string) : ChatTurn :=
  {| role := user; content := prompt |}.

Definition assistant_turn (text : string) : ChatTurn :=
  {| role := assistant; content := text |}.

(** The transcript an execution works on: the stored one, or the seeded
    greeting when the session has none yet. *)
Definition transcript (s : State) : list ChatTurn :=
  default [greeting] (messages s).

(** The state after lines 72-73. *)
Definition ensure_messages (s : State) : State :=
  match messages s with
  | None => set_messages [greeting] s
  | Some _ => s
  end.

(** What lines 76-78 draw for a transcript. *)
Definition rendered (l : list ChatTurn) : list event :=
  flat_map (λ message, [EvChatMessage (role message); EvMarkdown (content message)]) l.

(** The calls of lines 83-91, from the append of the user turn to the query. *)
Definition turn_prefix (prompt : string) : list event :=
  [ EvAppend (user_turn prompt); EvChatMessage user; EvMarkdown prompt;
    EvChatMessage assistant; EvSpinner "Thinking..."; EvQuery prompt ].

Definition query_event (e : event) : bool :=
  match e with EvQuery _ => true | _ => false end.

Definition is_Ok {A : Type} (r : result A) : bool :=
  match r with Ok _ => true | Raise _ => false end.

(** An execution in which a non-empty prompt got through both gates. *)
Definition submitted (w : World) (s : State) : bool :=
  match res_of (resolve_GROQ_API_KEY w s) with
  | Ok key =>
      truthy key && bool_decide ("session_id" ∈ dom (query_params w))
        && truthy (chat_input w)
  | Raise _ => false
  end.

(** An execution that took a prompt and ran to its end: one completed
    user/assistant pair. *)
Definition completed (w : World) (s : State) : bool :=
  submitted w s && is_Ok (res_of (script w s)).

(** The number of completed pairs in a session. *)
Fixpoint completed_pairs (ws : list World) (s : State) : nat :=
  match ws with
  | [] => 0
  | w :: rest =>
      (if completed w s then 1 else 0) + completed_pairs rest (state_of (script w s))
  end.

(** Every execution of the session ran to its end. *)
Fixpoint all_succeed (ws : list World) (s : State) : Prop :=
  match ws with
  | [] => True
  | w :: rest => res_of (script w s) = Ok tt ∧ all_succeed rest (state_of (script w s))
  end.

(** The transcript has [1 + 2 * k] turns, or does not exist yet and [k = 0]. *)
Definition counted (s : State) (k : nat) : Prop :=
  match messages s with
  | Some l => length l = 1 + 2 * k
  | None => k = 0
  end.

(** Everything an execution that reaches line 83 has done before it. *)
Definition before_turn (w : World) (s : State) (key : option string) : list event :=
  trace_of (resolve_GROQ_API_KEY w s) ++ page_events
    ++ trace_of (load_query_engine w key s)
    ++ rendered (transcript s) ++ [EvChatInput "Ask me anything..."].

(** The state in which line 83 runs. *)
Definition at_turn (w : World) (s : State) (key : option string) : State :=
  ensure_messages (state_of (load_query_engine w key s)).

(** The client that line 50 stores in [Settings.llm]. *)
Definition groq_client (GROQ_API_KEY : option string) : LangchainLLM :=
  {| llm := {| api_key := GROQ_API_KEY; model_name := "llama3-8b-8192";
               temperature := 7 # 10 |} |}.

(** The turns one execution can add to the transcript: a user turn alone, or
    a user turn and its answer. *)
Definition turn_block (extra : list ChatTurn) : Prop :=
  (∃ p, extra = [user_turn p]) ∨ (∃ p r, extra = [user_turn p; assistant_turn r]).

(** The roles of a transcript of [k] answered prompts. *)
Definition alternating (k : nat) : list Role :=
  assistant :: concat (replicate k [user; assistant]).

Definition roles_counted (s : State) (k : nat) : Prop :=
  match messages s with
  | Some l => role <$> l = alternating k
  | None => k = 0
  end.

(** The notice that stops an execution at a gate: the credential gate comes
    first, the access gate second. *)
Definition blocking_notice (GROQ_API_KEY : option string) : event :=
  if truthy GROQ_API_KEY
  then EvWarning access_denied_msg
  else EvError credential_missing_msg.

(** ** Concrete surroundings, used to exercise the statements *)

Definition demo_engine : QueryEngine :=
  {| index := {| indexed := ["refund policy"] |}; streaming := true |}.

(** A deployment with a secret, the access link, a prompt and a healthy
    engine that streams three fragments. *)
Definition demo_world : World :=
  {| secrets := λ _, Ok "gsk_live";
     environ := {["GROQ_API_KEY" := "gsk_local"]};
     query_params := {["session_id" := "a1b2"]};
     chat_input := Some "hi";
     load_data := λ _, Ok ["refund policy"];
     from_documents := λ ds, Ok {| indexed := ds |};
     query := λ _ _, Ok {| response_gen := ["Hel"; "lo"; " world"];
                           gen_raises := None |} |}.

(** No secrets file and no environment variable. *)
Definition no_credential_world : World :=
  {| secrets := λ _, Raise FileNotFoundError;
     environ := ∅;
     query_params := {["session_id" := "a1b2"]};
     chat_input := None;
     load_data := load_data demo_world;
     from_documents := from_documents demo_world;
     query := query demo_world |}.

(** The secret is present but empty. *)
Definition empty_credential_world : World :=
  {| secrets := λ _, Ok "";
     environ := {["GROQ_API_KEY" := "gsk_local"]};
     query_params := {["session_id" := "a1b2"]};
     chat_input := Some "hi";
     load_data := load_data demo_world;
     from_documents := from_documents demo_world;
     query := query demo_world |}.

(** The index cannot be built (the embedding service is down). *)
Definition broken_index_world : World :=
  {| secrets := secrets demo_world;
     environ := environ demo_world;
     query_params := query_params demo_world;
     chat_input := chat_input demo_world;
     load_data := load_data demo_world;
     from_documents := λ _, Raise (OtherException "ConnectionError");
     query := query demo_world |}.

(** The stream breaks after two fragments. *)
Definition broken_stream_world : World :=
  {| secrets := secrets demo_world;
     environ := environ demo_world;
     query_params := query_params demo_world;
     chat_input := chat_input demo_world;
     load_data := load_data demo_world;
     from_documents := from_documents demo_world;
     query := λ _ _, Ok {| response_gen := ["Hel"; "lo"];
                           gen_raises := Some (OtherException "APIError") |} |}.

(** Three page loads, each with a prompt that is answered. *)
Definition demo_session : list World := [demo_world; demo_world; demo_world].

(** A prompt whose stream breaks, then the same prompt answered. *)
Definition retry_session : list World := [broken_stream_world; demo_world].

(** The secrets file exists but cannot be read. *)
Definition unreadable_secrets_world : World :=
  {| secrets := λ _, Raise (OtherException "PermissionError");
     environ := environ demo_world;
     query_params := query_params demo_world;
     chat_input := chat_input demo_world;
     load_data := load_data demo_world;
     from_documents := from_documents demo_world;
     query := query demo_world |}.

(** The corpus directory is missing. *)
Definition broken_corpus_world : World :=
  {| secrets := secrets demo_world;
     environ := environ demo_world;
     query_params := query_params demo_world;
     chat_input := chat_input demo_world;
     load_data := λ _, Raise FileNotFoundError;
     from_documents := from_documents demo_world;
     query := query demo_world |}.

(** A process whose engine is built, with a new browser session. *)
Definition warm_state : State :=
  {| resource_cache := Some demo_engine;
     Settings_llm := Some (groq_client (Some "gsk_live"));
     session_state := ∅ |}.

(** The secrets file exists but cannot be read, and the environment has no
    such variable: neither source provides a value. *)
Definition unreachable_store_world : World :=
  {| secrets := λ _, Raise (OtherException "PermissionError");
     environ := ∅;
     query_params := query_params demo_world;
     chat_input := None;
     load_data := load_data demo_world;
     from_documents := from_documents demo_world;
     query := query demo_world |}.

(** * Properties *)

(** ** Strings *)

Lemma append_nil_r (a : string) : a +:+ "" = a.
Proof.
  induction a as [|c a IH]; [reflexivity |].
  change (String c (a +:+ "") = String c a). by rewrite IH.
Qed.

Lemma append_assoc (a b c : string) : (a +:+ b) +:+ c = a +:+ (b +:+ c).
Proof.
  induction a as [|x a IH]; [reflexivity |].
  change (String x ((a +:+ b) +:+ c) = String x (a +:+ (b +:+ c))). by rewrite IH.
Qed.

Lemma truthy_Some (p : string) : truthy (Some p) = true ↔ p ≠ "".
Proof.
  unfold truthy. destruct (String.eqb_spec p "") as [->|Hne]; simpl; split;
    intros; congruence.
Qed.

Lemma truthy_inv (v : option string) :
  truthy v = true → ∃ p, v = Some p ∧ p ≠ "".
Proof.
  destruct v as [p|]; [|discriminate]. intros H. exists p. split; [done|].
  by apply truthy_Some.
Qed.

(** ** The monad *)

Lemma bind_Ok {A B : Type} (m : M A) (f : A → M B) s a s1 t1 :
  m s = (Ok a, s1, t1) →
  (m ≫= f) s = ((f a s1).1.1, (f a s1).1.2, t1 ++ (f a s1).2).
Proof.
  intros H. unfold mbind, M_bind. rewrite H. by destruct (f a s1) as [[r s2] t2].
Qed.

Lemma bind_Raise {A B : Type} (m : M A) (f : A → M B) s e s1 t1 :
  m s = (Raise e, s1, t1) → (m ≫= f) s = (Raise e, s1, t1).
Proof. intros H. unfold mbind, M_bind. by rewrite H. Qed.

(** Unfolds the combinators of the monad and computes. *)
Ltac run :=
  unfold mbind, M_bind, mret, M_ret, emit, lift, get, modify, raise,
    try_except, res_of, state_of, trace_of in *; simpl in *.

(** Reduces the projections of outcomes that are explicit triples. *)
Ltac proj := unfold res_of, state_of, trace_of; cbn [fst snd].

(** Equality of two traces up to the bracketing of [++]. *)
Ltac trace_eq :=
  unfold trace_of; simpl; repeat (rewrite <- app_assoc; simpl); reflexivity.

(** ** Lines 15-18 *)

Lemma resolve_found (w : World) (s : State) (v : string) :
  secrets w "GROQ_API_KEY" = Ok v →
  resolve_GROQ_API_KEY w s = (Ok (Some v), s, [EvSecrets "GROQ_API_KEY"]).
Proof.
  intros H. unfold resolve_GROQ_API_KEY, st_secrets_getitem. run. by rewrite H.
Qed.

Lemma resolve_fallback (w : World) (s : State) (e : exn) :
  secrets w "GROQ_API_KEY" = Raise e →
  e = KeyError ∨ e = FileNotFoundError →
  resolve_GROQ_API_KEY w s
  = (Ok (environ w !! "GROQ_API_KEY"), s,
     [EvSecrets "GROQ_API_KEY"; EvGetenv "GROQ_API_KEY"]).
Proof.
  intros H [-> | ->]; unfold resolve_GROQ_API_KEY, st_secrets_getitem, os_getenv;
    run; by rewrite H.
Qed.

Lemma resolve_propagates (w : World) (s : State) (cls : string) :
  secrets w "GROQ_API_KEY" = Raise (OtherException cls) →
  resolve_GROQ_API_KEY w s
  = (Raise (OtherException cls), s, [EvSecrets "GROQ_API_KEY"]).
Proof.
  intros H. unfold resolve_GROQ_API_KEY, st_secrets_getitem. run. by rewrite H.
Qed.

Lemma resolve_state (w : World) (s : State) :
  state_of (resolve_GROQ_API_KEY w s) = s.
Proof.
  destruct (secrets w "GROQ_API_KEY") as [v | [| |cls]] eqn:H.
  - by rewrite (resolve_found _ _ _ H).
  - rewrite (resolve_fallback _ _ _ H); auto.
  - rewrite (resolve_fallback _ _ _ H); auto.
  - by rewrite (resolve_propagates _ _ _ H).
Qed.

Lemma resolve_no_engine (w : World) (s : State) :
  Forall (λ e, engine_event e = false ∧ turn_event e = false)
         (trace_of (resolve_GROQ_API_KEY w s)).
Proof.
  destruct (secrets w "GROQ_API_KEY") as [v | [| |cls]] eqn:H.
  - rewrite (resolve_found _ _ _ H). repeat constructor.
  - rewrite (resolve_fallback _ _ _ H); auto. repeat constructor.
  - rewrite (resolve_fallback _ _ _ H); auto. repeat constructor.
  - rewrite (resolve_propagates _ _ _ H). repeat constructor.
Qed.

Lemma page_setup_spec (s : State) : page_setup s = (Ok tt, s, page_events).
Proof. reflexivity. Qed.

(** The script once the credential is resolved. *)
Lemma script_resolved (w : World) (s : State) (key : option string) :
  res_of (resolve_GROQ_API_KEY w s) = Ok key →
  script w s
  = (res_of (app w key s), state_of (app w key s),
     trace_of (resolve_GROQ_API_KEY w s) ++ page_events ++ trace_of (app w key s)).
Proof.
  intros H. pose proof (resolve_state w s) as Hs. unfold script.
  destruct (resolve_GROQ_API_KEY w s) as [[r s1] t1] eqn:E.
  unfold res_of, state_of, trace_of in *. simpl in *. subst r s1.
  rewrite (bind_Ok _ _ _ _ _ _ E). simpl.
  rewrite (bind_Ok _ _ _ _ _ _ (page_setup_spec s)). simpl.
  by destruct (app w key s) as [[r2 s2] t2].
Qed.

Lemma script_unresolved (w : World) (s : State) (e : exn) :
  res_of (resolve_GROQ_API_KEY w s) = Raise e →
  script w s = (Raise e, s, trace_of (resolve_GROQ_API_KEY w s)).
Proof.
  intros H. pose proof (resolve_state w s) as Hs. unfold script.
  destruct (resolve_GROQ_API_KEY w s) as [[r s1] t1] eqn:E.
  unfold res_of, state_of, trace_of in *. simpl in *. subst r s1.
  by rewrite (bind_Raise _ _ _ _ _ _ E).
Qed.

(** ** The credential and the gates *)

(** C4: when the secret store yields a non-empty value for the credential
    name, the resolved credential is that value whatever the environment
    holds; and the environment is read only in executions whose secret-store
    lookup raised. *)
Theorem secret_store_has_priority (w : World) (s : State) (v : string)
    (env : gmap string string) :
  v ≠ "" →
  secrets w "GROQ_API_KEY" = Ok v →
  resolve_GROQ_API_KEY (with_environ env w) s
  = (Ok (Some v), s, [EvSecrets "GROQ_API_KEY"])
  ∧ ∀ w' s', Exists (λ e, getenv_event e = true)
                    (trace_of (resolve_GROQ_API_KEY w' s')) →
             ∃ e, secrets w' "GROQ_API_KEY" = Raise e.
Proof.
  intros _ Hv. split.
  - by apply resolve_found.
  - intros w' s' Hex. destruct (secrets w' "GROQ_API_KEY") as [v'|e] eqn:H.
    + rewrite (resolve_found _ _ _ H) in Hex. unfold trace_of in Hex. simpl in Hex.
      apply Exists_cons in Hex as [Hex|Hex]; [discriminate | by apply Exists_nil in Hex].
    + by exists e.
Qed.

Lemma secret_store_has_priority_witness :
  resolve_GROQ_API_KEY
    (with_environ {["GROQ_API_KEY" := "gsk_other"]} demo_world) initial_state
  = (Ok (Some "gsk_live"), initial_state, [EvSecrets "GROQ_API_KEY"])
  ∧ ∀ w' s', Exists (λ e, getenv_event e = true)
                    (trace_of (resolve_GROQ_API_KEY w' s')) →
             ∃ e, secrets w' "GROQ_API_KEY" = Raise e.
Proof.
  apply (secret_store_has_priority demo_world initial_state "gsk_live");
    [discriminate | reflexivity].
Defined.

Lemma app_falsy (w : World) (s : State) (key : option string) :
  truthy key = false →
  app w key s = (Ok tt, s, [EvError credential_missing_msg]).
Proof. intros H. unfold app. by rewrite H. Qed.

Lemma app_denied (w : World) (s : State) (key : option string) :
  query_params w !! "session_id" = None →
  app w key s = (Ok tt, s, [blocking_notice key]).
Proof.
  intros H. unfold app, blocking_notice, access_gate. rewrite H.
  by destruct (truthy key).
Qed.

Lemma app_allowed (w : World) (s : State) (key : option string) :
  truthy key = true →
  is_Some (query_params w !! "session_id") →
  app w key s = chat w key s.
Proof.
  intros Hk [v Hv]. unfold app, access_gate. by rewrite Hk, Hv.
Qed.

(** C5: when the secret-store lookup raises one of the two exceptions the
    script catches (no such secret, no secrets file) and the environment has no
    such variable, resolution yields [None] without raising, the execution
    shows the missing-credential error and nothing else, ends normally with
    the stores untouched, and the session goes on with the next execution. *)
Theorem absent_credential_is_reported (w : World) (s : State) (e : exn) :
  secrets w "GROQ_API_KEY" = Raise e →
  e = KeyError ∨ e = FileNotFoundError →
  environ w !! "GROQ_API_KEY" = None →
  resolve_GROQ_API_KEY w s
  = (Ok None, s, [EvSecrets "GROQ_API_KEY"; EvGetenv "GROQ_API_KEY"])
  ∧ script w s
    = (Ok tt, s,
       [EvSecrets "GROQ_API_KEY"; EvGetenv "GROQ_API_KEY"]
         ++ page_events ++ [EvError credential_missing_msg])
  ∧ ∀ ws, run_session (w :: ws) s = run_session ws s.
Proof.
  intros Hs He Henv.
  assert (Hr : resolve_GROQ_API_KEY w s
               = (Ok None, s, [EvSecrets "GROQ_API_KEY"; EvGetenv "GROQ_API_KEY"])).
  { rewrite (resolve_fallback _ _ _ Hs He). by rewrite Henv. }
  assert (Hscript : script w s
    = (Ok tt, s, [EvSecrets "GROQ_API_KEY"; EvGetenv "GROQ_API_KEY"]
                   ++ page_events ++ [EvError credential_missing_msg])).
  { rewrite (script_resolved w s None); [|by rewrite Hr].
    rewrite Hr. by rewrite app_falsy. }
  split; [done|]. split; [done|].
  intros ws. simpl. by rewrite Hscript.
Qed.

Lemma absent_credential_is_reported_witness :
  resolve_GROQ_API_KEY no_credential_world initial_state
  = (Ok None, initial_state, [EvSecrets "GROQ_API_KEY"; EvGetenv "GROQ_API_KEY"])
  ∧ script no_credential_world initial_state
    = (Ok tt, initial_state,
       [EvSecrets "GROQ_API_KEY"; EvGetenv "GROQ_API_KEY"]
         ++ page_events ++ [EvError credential_missing_msg])
  ∧ ∀ ws, run_session (no_credential_world :: ws) initial_state
          = run_session ws initial_state.
Proof.
  apply (absent_credential_is_reported no_credential_world initial_state
           FileNotFoundError); [reflexivity | by right | reflexivity].
Defined.

(** C5, the limit of the handler: when the secret store fails with an
    exception line 17 does not name (here the secrets file cannot be read) and
    the environment has no such variable, neither source provides a value, yet
    resolution does not return [None]: the exception leaves line 16, the
    execution ends with it and the missing-credential error is never shown. *)
Lemma unreachable_store_raises :
  secrets unreachable_store_world "GROQ_API_KEY"
  = Raise (OtherException "PermissionError")
  ∧ environ unreachable_store_world !! "GROQ_API_KEY" = None
  ∧ res_of (resolve_GROQ_API_KEY unreachable_store_world initial_state) ≠ Ok None
  ∧ script unreachable_store_world initial_state
    = (Raise (OtherException "PermissionError"), initial_state,
       [EvSecrets "GROQ_API_KEY"])
  ∧ ¬ In (EvError credential_missing_msg)
         (trace_of (script unreachable_store_world initial_state)).
Proof.
  split; [reflexivity|]. split; [reflexivity|]. split; [discriminate|].
  split; [reflexivity|].
  intros [H | []]. discriminate H.
Qed.

(** C10: a credential that resolves to the empty string passes through the
    gate exactly as an absent one does: the execution shows the
    missing-credential error, ends normally, leaves the stores untouched and
    makes no call to the engine cache or the turn loop. *)
Theorem empty_credential_is_missing (w : World) (s : State) :
  res_of (resolve_GROQ_API_KEY w s) = Ok (Some "") →
  app w (Some "") s = app w None s
  ∧ script w s
    = (Ok tt, s,
       trace_of (resolve_GROQ_API_KEY w s) ++ page_events
         ++ [EvError credential_missing_msg])
  ∧ Forall (λ e, engine_event e = false ∧ turn_event e = false)
           (trace_of (script w s)).
Proof.
  intros H.
  assert (Hscript : script w s
    = (Ok tt, s, trace_of (resolve_GROQ_API_KEY w s) ++ page_events
                   ++ [EvError credential_missing_msg])).
  { rewrite (script_resolved w s _ H). by rewrite app_falsy. }
  split; [by rewrite !app_falsy|]. split; [done|].
  rewrite Hscript. unfold trace_of at 1. simpl.
  apply Forall_app. split; [apply resolve_no_engine | repeat constructor].
Qed.

Lemma empty_credential_is_missing_witness :
  app empty_credential_world (Some "") initial_state
  = app empty_credential_world None initial_state
  ∧ script empty_credential_world initial_state
    = (Ok tt, initial_state,
       trace_of (resolve_GROQ_API_KEY empty_credential_world initial_state)
         ++ page_events ++ [EvError credential_missing_msg])
  ∧ Forall (λ e, engine_event e = false ∧ turn_event e = false)
           (trace_of (script empty_credential_world initial_state)).
Proof.
  apply (empty_credential_is_missing empty_credential_world initial_state).
  reflexivity.
Defined.

(** C6: in an execution whose query parameters lack [session_id], no call
    reaches the engine (no cache lookup, no document loading, no LLM client,
    no index construction, no query) and the stores are untouched; whenever
    the credential resolved, the execution ends normally on a blocking notice
    (the access warning, or the credential error when the key is falsy). *)
Theorem no_access_parameter_no_engine (w : World) (s : State) :
  "session_id" ∉ dom (query_params w) →
  Forall (λ e, engine_event e = false) (trace_of (script w s))
  ∧ state_of (script w s) = s
  ∧ ∀ key, res_of (resolve_GROQ_API_KEY w s) = Ok key →
      script w s
      = (Ok tt, s,
         trace_of (resolve_GROQ_API_KEY w s) ++ page_events ++ [blocking_notice key]).
Proof.
  intros Hq. apply not_elem_of_dom in Hq.
  assert (Hres : Forall (λ e, engine_event e = false)
                        (trace_of (resolve_GROQ_API_KEY w s))).
  { eapply Forall_impl; [apply resolve_no_engine|]. by intros e [? _]. }
  destruct (res_of (resolve_GROQ_API_KEY w s)) as [key|e] eqn:Hr.
  - rewrite (script_resolved w s key Hr), (app_denied w s key Hq).
    unfold state_of, trace_of at 1. simpl. split; [|split; [done|]].
    + apply Forall_app. split; [done|].
      repeat constructor. unfold blocking_notice. by destruct (truthy key).
    + intros key' [= <-]. done.
  - rewrite (script_unresolved w s e Hr). split; [done|]. split; [done|].
    intros key' [=].
Qed.

Lemma no_access_parameter_no_engine_witness :
  res_of (resolve_GROQ_API_KEY (with_query_params ∅ demo_world) initial_state)
  = Ok (Some "gsk_live")
  ∧ Forall (λ e, engine_event e = false)
           (trace_of (script (with_query_params ∅ demo_world) initial_state))
  ∧ state_of (script (with_query_params ∅ demo_world) initial_state) = initial_state
  ∧ ∀ key,
      res_of (resolve_GROQ_API_KEY (with_query_params ∅ demo_world) initial_state)
      = Ok key →
      script (with_query_params ∅ demo_world) initial_state
      = (Ok tt, initial_state,
         trace_of (resolve_GROQ_API_KEY (with_query_params ∅ demo_world) initial_state)
           ++ page_events ++ [blocking_notice key]).
Proof.
  split; [reflexivity|].
  apply (no_access_parameter_no_engine (with_query_params ∅ demo_world) initial_state).
  simpl. rewrite dom_empty_L. apply not_elem_of_empty.
Defined.

(** C9: the access gate looks at the presence of [session_id] only: two
    requests that both carry the parameter are both allowed, whatever the
    values, and the whole execution is the same for both. *)
Theorem gate_checks_presence_only (w : World) (s : State)
    (q1 q2 : gmap string string) :
  "session_id" ∈ dom q1 →
  "session_id" ∈ dom q2 →
  access_gate q1 = Allowed ∧ access_gate q2 = Allowed
  ∧ script (with_query_params q1 w) s = script (with_query_params q2 w) s.
Proof.
  intros [v1 H1]%elem_of_dom [v2 H2]%elem_of_dom.
  assert (G1 : access_gate q1 = Allowed) by (unfold access_gate; by rewrite H1).
  assert (G2 : access_gate q2 = Allowed) by (unfold access_gate; by rewrite H2).
  split; [done|]. split; [done|].
  unfold script, app. simpl. rewrite G1, G2. reflexivity.
Qed.

Lemma gate_checks_presence_only_witness :
  access_gate {["session_id" := "a1b2"]} = Allowed
  ∧ access_gate {["session_id" := ""; "utm" := "mail"]} = Allowed
  ∧ script (with_query_params {["session_id" := "a1b2"]} demo_world) initial_state
    = script (with_query_params {["session_id" := ""; "utm" := "mail"]} demo_world)
             initial_state.
Proof.
  apply (gate_checks_presence_only demo_world initial_state
           {["session_id" := "a1b2"]} {["session_id" := ""; "utm" := "mail"]}).
  - apply elem_of_dom. exists "a1b2". reflexivity.
  - apply elem_of_dom. exists "". reflexivity.
Defined.

(** ** The engine cache *)

Lemma load_cached (w : World) (key : option string) (s : State) (engine : QueryEngine) :
  resource_cache s = Some engine →
  load_query_engine w key s = (Ok engine, s, [EvCacheLookup]).
Proof.
  intros H. unfold load_query_engine, cache_resource. run. by rewrite H.
Qed.

Lemma load_no_documents (w : World) (key : option string) (s : State) (e : exn) :
  resource_cache s = None →
  load_data w DATA_PATH = Raise e →
  load_query_engine w key s = (Raise e, s, [EvCacheLookup; EvLoadData DATA_PATH]).
Proof.
  intros Hc Hl. unfold load_query_engine, cache_resource, load_query_engine_body.
  run. by rewrite Hc, Hl.
Qed.

Lemma load_no_index (w : World) (key : option string) (s : State)
    (documents : list Document) (e : exn) :
  resource_cache s = None →
  load_data w DATA_PATH = Ok documents →
  from_documents w documents = Raise e →
  load_query_engine w key s
  = (Raise e,
     set_Settings_llm
       (Some {| llm := {| api_key := key; model_name := "llama3-8b-8192";
                          temperature := 7 # 10 |} |}) s,
     EvCacheLookup :: take 3 (build_events key documents)).
Proof.
  intros Hc Hl Hi. unfold load_query_engine, cache_resource, load_query_engine_body.
  run. by rewrite Hc, Hl, Hi.
Qed.

Lemma load_built (w : World) (key : option string) (s : State)
    (documents : list Document) (idx : VectorStoreIndex) :
  resource_cache s = None →
  load_data w DATA_PATH = Ok documents →
  from_documents w documents = Ok idx →
  load_query_engine w key s
  = (Ok {| index := idx; streaming := true |},
     set_resource_cache (Some {| index := idx; streaming := true |})
       (set_Settings_llm
          (Some {| llm := {| api_key := key; model_name := "llama3-8b-8192";
                             temperature := 7 # 10 |} |}) s),
     EvCacheLookup :: build_events key documents).
Proof.
  intros Hc Hl Hi. unfold load_query_engine, cache_resource, load_query_engine_body.
  run. by rewrite Hc, Hl, Hi.
Qed.

(** The cache never touches the session. *)
Lemma load_session (w : World) (key : option string) (s : State) :
  session_state (state_of (load_query_engine w key s)) = session_state s.
Proof.
  destruct (resource_cache s) as [engine|] eqn:Hc.
  { by rewrite (load_cached _ _ _ _ Hc). }
  destruct (load_data w DATA_PATH) as [documents|e] eqn:Hl.
  2: { by rewrite (load_no_documents _ _ _ _ Hc Hl). }
  destruct (from_documents w documents) as [idx|e] eqn:Hi.
  - by rewrite (load_built _ _ _ _ _ Hc Hl Hi).
  - by rewrite (load_no_index _ _ _ _ _ Hc Hl Hi).
Qed.

(** One caller after another: once a call has returned an engine, every later
    call, whatever its surroundings, returns that engine and runs no build
    step. *)
Lemma engine_is_built_once (w : World) (key : option string) (s : State)
    (engine : QueryEngine) :
  res_of (load_query_engine w key s) = Ok engine →
  ∀ w' key',
    load_query_engine w' key' (state_of (load_query_engine w key s))
    = (Ok engine, state_of (load_query_engine w key s), [EvCacheLookup]).
Proof.
  intros Hok w' key'. apply load_cached.
  destruct (resource_cache s) as [cached|] eqn:Hc.
  { rewrite (load_cached _ _ _ _ Hc) in Hok |- *.
    unfold res_of in Hok. simpl in Hok. injection Hok as <-. done. }
  destruct (load_data w DATA_PATH) as [documents|e] eqn:Hl.
  2: { rewrite (load_no_documents _ _ _ _ Hc Hl) in Hok. discriminate. }
  destruct (from_documents w documents) as [idx|e] eqn:Hi.
  - rewrite (load_built _ _ _ _ _ Hc Hl Hi) in Hok |- *.
    unfold res_of in Hok. simpl in Hok. injection Hok as <-. done.
  - rewrite (load_no_index _ _ _ _ _ Hc Hl Hi) in Hok. discriminate.
Qed.

(** ** The transcript and the turn *)

Lemma messages_set_messages (l : list ChatTurn) (s : State) :
  messages (set_messages l s) = Some l.
Proof. unfold messages, set_messages. simpl. apply lookup_insert_eq. Qed.

Lemma messages_ensure (s : State) :
  messages (ensure_messages s) = Some (transcript s).
Proof.
  unfold ensure_messages, transcript. destruct (messages s) as [l|] eqn:H; simpl.
  - done.
  - apply messages_set_messages.
Qed.

Lemma init_messages_spec (s : State) :
  init_messages s = (Ok tt, ensure_messages s, []).
Proof.
  unfold init_messages, ensure_messages, messages. run.
  by destruct (session_state s !! "messages").
Qed.

Lemma get_messages_spec (s : State) (l : list ChatTurn) :
  messages s = Some l → get_messages s = (Ok l, s, []).
Proof. unfold get_messages, messages. intros H. run. by rewrite H. Qed.

Lemma messages_append_spec (t : ChatTurn) (s : State) (l : list ChatTurn) :
  messages s = Some l →
  messages_append t s = (Ok tt, set_messages (l ++ [t]) s, [EvAppend t]).
Proof.
  intros H. unfold messages_append.
  rewrite (bind_Ok _ _ _ _ _ _ (get_messages_spec s l H)). reflexivity.
Qed.

Lemma display_messages_spec (l : list ChatTurn) (s : State) :
  display_messages l s = (Ok tt, s, rendered l).
Proof.
  induction l as [|message rest IH]; [reflexivity|].
  simpl. run. by rewrite IH.
Qed.

Lemma consume_spec (gen : list string) (raises : option exn) (acc : string) (s : State) :
  consume gen raises acc s
  = (match raises with
     | None => Ok (acc +:+ concat_fragments gen)
     | Some e => Raise e
     end, s, displayed acc gen).
Proof.
  revert acc. induction gen as [|text rest IH]; intros acc.
  - simpl. destruct raises; run; [done|]. by rewrite append_nil_r.
  - simpl. run. rewrite IH. destruct raises; [done|].
    by rewrite append_assoc.
Qed.

Lemma set_messages_twice (l1 l2 : list ChatTurn) (s : State) :
  set_messages l2 (set_messages l1 s) = set_messages l2 s.
Proof.
  unfold set_messages, set_session_state. simpl. by rewrite insert_insert_eq.
Qed.

(** The stream ran dry: both turns are in the transcript. *)
Lemma turn_completes (w : World) (engine : QueryEngine) (p : string) (s : State)
    (l : list ChatTurn) (fragments : list string) :
  messages s = Some l →
  query w engine p = Ok {| response_gen := fragments; gen_raises := None |} →
  turn w engine p s
  = (Ok tt,
     set_messages (l ++ [user_turn p; assistant_turn (concat_fragments fragments)]) s,
     turn_prefix p ++ [EvEmpty] ++ displayed "" fragments
       ++ [EvAppend (assistant_turn (concat_fragments fragments))]).
Proof.
  intros Hm Hq. unfold turn.
  rewrite (bind_Ok _ _ _ _ _ _ (messages_append_spec _ s l Hm)).
  run. rewrite Hq. simpl. rewrite consume_spec. simpl.
  rewrite (messages_append_spec _ _ (l ++ [user_turn p])) by apply messages_set_messages.
  simpl. rewrite set_messages_twice, <- (app_assoc l). reflexivity.
Qed.

(** The query itself raised. *)
Lemma turn_query_raises (w : World) (engine : QueryEngine) (p : string) (s : State)
    (l : list ChatTurn) (e : exn) :
  messages s = Some l →
  query w engine p = Raise e →
  turn w engine p s = (Raise e, set_messages (l ++ [user_turn p]) s, turn_prefix p).
Proof.
  intros Hm Hq. unfold turn.
  rewrite (bind_Ok _ _ _ _ _ _ (messages_append_spec _ s l Hm)).
  run. by rewrite Hq.
Qed.

(** The generator raised after some fragments. *)
Lemma turn_stream_raises (w : World) (engine : QueryEngine) (p : string) (s : State)
    (l : list ChatTurn) (fragments : list string) (e : exn) :
  messages s = Some l →
  query w engine p = Ok {| response_gen := fragments; gen_raises := Some e |} →
  turn w engine p s
  = (Raise e, set_messages (l ++ [user_turn p]) s,
     turn_prefix p ++ [EvEmpty] ++ displayed "" fragments).
Proof.
  intros Hm Hq. unfold turn.
  rewrite (bind_Ok _ _ _ _ _ _ (messages_append_spec _ s l Hm)).
  run. rewrite Hq. simpl. rewrite consume_spec. reflexivity.
Qed.

(** ** Past the gates *)

Lemma chat_engine_failed (w : World) (key : option string) (s s1 : State)
    (e : exn) (t1 : list event) :
  load_query_engine w key s = (Raise e, s1, t1) →
  chat w key s = (Raise e, s1, t1).
Proof. intros H. unfold chat. by rewrite (bind_Raise _ _ _ _ _ _ H). Qed.

Lemma chat_idle (w : World) (key : option string) (s s1 : State)
    (engine : QueryEngine) (t1 : list event) :
  load_query_engine w key s = (Ok engine, s1, t1) →
  truthy (chat_input w) = false →
  chat w key s
  = (Ok tt, ensure_messages s1,
     t1 ++ rendered (transcript s1) ++ [EvChatInput "Ask me anything..."]).
Proof.
  intros H Hi. unfold chat. rewrite (bind_Ok _ _ _ _ _ _ H).
  rewrite (bind_Ok _ _ _ _ _ _ (init_messages_spec s1)).
  rewrite (bind_Ok _ _ _ _ _ _ (get_messages_spec _ _ (messages_ensure s1))).
  rewrite (bind_Ok _ _ _ _ _ _ (display_messages_spec _ _)).
  destruct (chat_input w) as [p|]; [|reflexivity].
  rewrite Hi. reflexivity.
Qed.

Lemma chat_turn (w : World) (key : option string) (s s1 : State)
    (engine : QueryEngine) (t1 : list event) (p : string) :
  load_query_engine w key s = (Ok engine, s1, t1) →
  chat_input w = Some p →
  p ≠ "" →
  chat w key s
  = (res_of (turn w engine p (ensure_messages s1)),
     state_of (turn w engine p (ensure_messages s1)),
     t1 ++ rendered (transcript s1) ++ [EvChatInput "Ask me anything..."]
        ++ trace_of (turn w engine p (ensure_messages s1))).
Proof.
  intros H Hi Hp. unfold chat. rewrite (bind_Ok _ _ _ _ _ _ H).
  rewrite (bind_Ok _ _ _ _ _ _ (init_messages_spec s1)).
  rewrite (bind_Ok _ _ _ _ _ _ (get_messages_spec _ _ (messages_ensure s1))).
  rewrite (bind_Ok _ _ _ _ _ _ (display_messages_spec _ _)).
  rewrite Hi. apply truthy_Some in Hp. rewrite Hp. simpl.
  run. by destruct (turn w engine p (ensure_messages s1)) as [[r s2] t2].
Qed.

(** The script once both gates are passed. *)
Lemma script_chat (w : World) (s : State) (key : option string) :
  res_of (resolve_GROQ_API_KEY w s) = Ok key →
  truthy key = true →
  "session_id" ∈ dom (query_params w) →
  script w s
  = (res_of (chat w key s), state_of (chat w key s),
     trace_of (resolve_GROQ_API_KEY w s) ++ page_events ++ trace_of (chat w key s)).
Proof.
  intros Hr Hk Hq%elem_of_dom.
  by rewrite (script_resolved w s key Hr), (app_allowed w s key Hk Hq).
Qed.

Lemma load_messages (w : World) (key : option string) (s s1 : State)
    (r : result QueryEngine) (t1 : list event) :
  load_query_engine w key s = (r, s1, t1) →
  messages s1 = messages s ∧ transcript s1 = transcript s.
Proof.
  intros H. pose proof (load_session w key s) as Hs. rewrite H in Hs.
  unfold state_of in Hs. simpl in Hs. unfold transcript, messages. by rewrite Hs.
Qed.

Lemma rendered_no_query (l : list ChatTurn) :
  Forall (λ e, query_event e = false) (rendered l).
Proof. induction l as [|m l IH]; simpl; repeat constructor; done. Qed.

Lemma load_no_query (w : World) (key : option string) (s : State) :
  Forall (λ e, query_event e = false) (trace_of (load_query_engine w key s)).
Proof.
  destruct (resource_cache s) as [engine|] eqn:Hc.
  { rewrite (load_cached _ _ _ _ Hc). repeat constructor. }
  destruct (load_data w DATA_PATH) as [documents|e] eqn:Hl.
  2: { rewrite (load_no_documents _ _ _ _ Hc Hl). repeat constructor. }
  destruct (from_documents w documents) as [idx|e] eqn:Hi.
  - rewrite (load_built _ _ _ _ _ Hc Hl Hi). repeat constructor.
  - rewrite (load_no_index _ _ _ _ _ Hc Hl Hi). repeat constructor.
Qed.

Lemma resolve_no_query (w : World) (s : State) :
  Forall (λ e, query_event e = false) (trace_of (resolve_GROQ_API_KEY w s)).
Proof.
  eapply Forall_impl; [apply resolve_no_engine|].
  intros e [H _]. by destruct e.
Qed.

Lemma concat_fragments_app (a b : list string) :
  concat_fragments (a ++ b) = concat_fragments a +:+ concat_fragments b.
Proof.
  induction a as [|x a IH]; [reflexivity|].
  change (x +:+ concat_fragments (a ++ b)
          = (x +:+ concat_fragments a) +:+ concat_fragments b).
  by rewrite IH, append_assoc.
Qed.

(** ** The engine cache: failures *)

(** C7: when a call of the cached [load_query_engine] raises (document
    loading or index construction failed), the exception reaches the caller,
    the cache holds no engine afterwards, and the next call starts the build
    again from its first step; with a healthy corpus it runs the full build
    sequence, returns the freshly built engine and caches it. *)
Theorem failed_build_is_not_cached (w : World) (key : option string) (s : State)
    (e : exn) :
  res_of (load_query_engine w key s) = Raise e →
  let after := state_of (load_query_engine w key s) in
  resource_cache after = None
  ∧ chat w key s = (Raise e, after, trace_of (load_query_engine w key s))
  ∧ (∀ w' key', ∃ rest,
       trace_of (load_query_engine w' key' after)
       = EvCacheLookup :: EvLoadData DATA_PATH :: rest)
  ∧ ∀ w' key' documents idx,
      load_data w' DATA_PATH = Ok documents →
      from_documents w' documents = Ok idx →
      res_of (load_query_engine w' key' after) = Ok {| index := idx; streaming := true |}
      ∧ trace_of (load_query_engine w' key' after)
        = EvCacheLookup :: build_events key' documents
      ∧ resource_cache (state_of (load_query_engine w' key' after))
        = Some {| index := idx; streaming := true |}.
Proof.
  intros Hfail after.
  assert (Hnone : resource_cache after = None).
  { subst after. destruct (resource_cache s) as [engine|] eqn:Hc.
    { rewrite (load_cached _ _ _ _ Hc) in Hfail. discriminate. }
    destruct (load_data w DATA_PATH) as [documents|e1] eqn:Hl.
    2: { by rewrite (load_no_documents _ _ _ _ Hc Hl). }
    destruct (from_documents w documents) as [idx|e2] eqn:Hi.
    - rewrite (load_built _ _ _ _ _ Hc Hl Hi) in Hfail. discriminate.
    - by rewrite (load_no_index _ _ _ _ _ Hc Hl Hi). }
  split; [done|]. split.
  { subst after. destruct (load_query_engine w key s) as [[r s1] t1] eqn:Hl.
    unfold res_of in Hfail. simpl in Hfail. subst r.
    by rewrite (chat_engine_failed _ _ _ _ _ _ Hl). }
  split.
  - intros w' key'.
    destruct (load_data w' DATA_PATH) as [documents|e1] eqn:Hl.
    2: { rewrite (load_no_documents _ _ _ _ Hnone Hl). by eexists. }
    destruct (from_documents w' documents) as [idx|e2] eqn:Hi.
    + rewrite (load_built _ _ _ _ _ Hnone Hl Hi). by eexists.
    + rewrite (load_no_index _ _ _ _ _ Hnone Hl Hi). by eexists.
  - intros w' key' documents idx Hl Hi.
    by rewrite (load_built _ _ _ _ _ Hnone Hl Hi).
Qed.

Lemma failed_build_is_not_cached_witness :
  let after :=
    state_of (load_query_engine broken_index_world (Some "gsk_live") initial_state) in
  resource_cache after = None
  ∧ chat broken_index_world (Some "gsk_live") initial_state
    = (Raise (OtherException "ConnectionError"), after,
       trace_of (load_query_engine broken_index_world (Some "gsk_live") initial_state))
  ∧ (∀ w' key', ∃ rest,
       trace_of (load_query_engine w' key' after)
       = EvCacheLookup :: EvLoadData DATA_PATH :: rest)
  ∧ ∀ w' key' documents idx,
      load_data w' DATA_PATH = Ok documents →
      from_documents w' documents = Ok idx →
      res_of (load_query_engine w' key' after) = Ok {| index := idx; streaming := true |}
      ∧ trace_of (load_query_engine w' key' after)
        = EvCacheLookup :: build_events key' documents
      ∧ resource_cache (state_of (load_query_engine w' key' after))
        = Some {| index := idx; streaming := true |}.
Proof.
  apply (failed_build_is_not_cached broken_index_world (Some "gsk_live")
           initial_state (OtherException "ConnectionError")).
  reflexivity.
Defined.

(** After the failed build, a page load with a healthy corpus builds the
    engine from scratch and caches it. *)
Example failed_build_then_rebuilt :
  load_query_engine demo_world (Some "gsk_live")
    (state_of (load_query_engine broken_index_world (Some "gsk_live") initial_state))
  = (Ok demo_engine,
     set_resource_cache (Some demo_engine)
       (state_of (load_query_engine demo_world (Some "gsk_live") initial_state)),
     EvCacheLookup :: build_events (Some "gsk_live") ["refund policy"]).
Proof. reflexivity. Qed.

(** ** One turn *)

Section Turn.

(** An execution that takes the non-empty prompt [p] through both gates and
    obtains the engine. *)
Context (w : World) (s : State) (key : option string) (engine : QueryEngine)
  (p : string).
Hypothesis resolved : res_of (resolve_GROQ_API_KEY w s) = Ok key.
Hypothesis key_truthy : truthy key = true.
Hypothesis has_session_id : "session_id" ∈ dom (query_params w).
Hypothesis engine_loaded : res_of (load_query_engine w key s) = Ok engine.
Hypothesis prompt_given : chat_input w = Some p.
Hypothesis prompt_non_empty : p ≠ "".

Lemma at_turn_messages : messages (at_turn w s key) = Some (transcript s).
Proof.
  unfold at_turn. rewrite messages_ensure.
  destruct (load_query_engine w key s) as [[r s1] t1] eqn:El.
  destruct (load_messages _ _ _ _ _ _ El) as [_ Ht].
  unfold state_of. simpl. by rewrite Ht.
Qed.

Lemma script_turn :
  script w s
  = (res_of (turn w engine p (at_turn w s key)),
     state_of (turn w engine p (at_turn w s key)),
     before_turn w s key ++ trace_of (turn w engine p (at_turn w s key))).
Proof.
  rewrite (script_chat w s key resolved key_truthy has_session_id).
  unfold before_turn, at_turn.
  destruct (load_query_engine w key s) as [[r s1] t1] eqn:El.
  unfold res_of in engine_loaded. simpl in engine_loaded. subst r.
  destruct (load_messages _ _ _ _ _ _ El) as [_ Ht].
  rewrite (chat_turn _ _ _ _ _ _ _ El prompt_given prompt_non_empty), Ht.
  unfold res_of at 1, state_of at 1 3. simpl. f_equal. trace_eq.
Qed.

Lemma before_turn_no_query :
  Forall (λ e, query_event e = false) (before_turn w s key).
Proof.
  unfold before_turn. repeat apply Forall_app_2.
  - apply resolve_no_query.
  - repeat constructor.
  - apply load_no_query.
  - apply rendered_no_query.
  - repeat constructor.
Qed.

(** C2: in an execution that takes a prompt through both gates and whose
    stream yields the fragments [fragments] and then stops, the execution ends
    normally and the transcript grows by the user turn followed by one
    assistant turn whose content is the in-order concatenation of the
    fragments; for ["Hel"; "lo"; " world"] that is "Hello world". *)
Theorem committed_turn_is_concatenation (fragments : list string) :
  query w engine p = Ok {| response_gen := fragments; gen_raises := None |} →
  res_of (script w s) = Ok tt
  ∧ messages (state_of (script w s))
    = Some (transcript s
              ++ [user_turn p; assistant_turn (concat_fragments fragments)])
  ∧ concat_fragments ["Hel"; "lo"; " world"] = "Hello world".
Proof.
  intros Hs. rewrite script_turn.
  rewrite (turn_completes _ _ _ _ _ _ at_turn_messages Hs).
  unfold res_of, state_of. simpl.
  split; [done|]. split; [|reflexivity].
  by rewrite messages_set_messages.
Qed.

(** C3: in an execution that takes a non-empty prompt through both gates and
    obtains the engine, the user turn is appended and echoed before the first
    query to the engine; and when the query raises, at the call or in the
    middle of the stream, the exception ends the execution, the buffer is not
    committed, and the transcript is the previous one followed by the user
    turn alone, which is its last turn. *)
Theorem user_turn_survives_failed_query :
  (∃ pre post,
     trace_of (script w s) = pre ++ turn_prefix p ++ post
     ∧ Forall (λ e, query_event e = false) pre)
  ∧ ∀ e,
      (query w engine p = Raise e
       ∨ ∃ fragments,
           query w engine p
           = Ok {| response_gen := fragments; gen_raises := Some e |}) →
      res_of (script w s) = Raise e
      ∧ messages (state_of (script w s)) = Some (transcript s ++ [user_turn p])
      ∧ last (transcript s ++ [user_turn p]) = Some (user_turn p).
Proof.
  rewrite script_turn. pose proof at_turn_messages as Hm. split.
  - exists (before_turn w s key). unfold trace_of at 1. simpl.
    destruct (query w engine p) as [[fragments [e|]]|e] eqn:Eq.
    + rewrite (turn_stream_raises _ _ _ _ _ _ _ Hm Eq).
      exists ([EvEmpty] ++ displayed "" fragments).
      split; [reflexivity | apply before_turn_no_query].
    + rewrite (turn_completes _ _ _ _ _ _ Hm Eq).
      exists ([EvEmpty] ++ displayed "" fragments
                ++ [EvAppend (assistant_turn (concat_fragments fragments))]).
      split; [reflexivity | apply before_turn_no_query].
    + rewrite (turn_query_raises _ _ _ _ _ _ Hm Eq).
      exists []. split; [|apply before_turn_no_query].
      unfold trace_of. simpl. reflexivity.
  - intros e [Eq | [fragments Eq]].
    + rewrite (turn_query_raises _ _ _ _ _ _ Hm Eq). unfold res_of, state_of. simpl.
      rewrite messages_set_messages. by rewrite last_snoc.
    + rewrite (turn_stream_raises _ _ _ _ _ _ _ Hm Eq). unfold res_of, state_of. simpl.
      rewrite messages_set_messages. by rewrite last_snoc.
Qed.

End Turn.

Lemma committed_turn_is_concatenation_witness :
  res_of (script demo_world initial_state) = Ok tt
  ∧ messages (state_of (script demo_world initial_state))
    = Some (transcript initial_state
              ++ [user_turn "hi";
                  assistant_turn (concat_fragments ["Hel"; "lo"; " world"])])
  ∧ concat_fragments ["Hel"; "lo"; " world"] = "Hello world".
Proof.
  apply (committed_turn_is_concatenation demo_world initial_state
           (Some "gsk_live") demo_engine "hi").
  - reflexivity.
  - reflexivity.
  - apply elem_of_dom. exists "a1b2". reflexivity.
  - reflexivity.
  - reflexivity.
  - discriminate.
  - reflexivity.
Defined.

(** The empty stream commits an assistant turn with empty content. *)
Example empty_stream_commits_empty_turn :
  concat_fragments [] = "" ∧ consume [] None "" initial_state = (Ok "", initial_state, []).
Proof. split; reflexivity. Qed.

Lemma user_turn_survives_failed_query_witness :
  query broken_stream_world demo_engine "hi"
  = Ok {| response_gen := ["Hel"; "lo"];
          gen_raises := Some (OtherException "APIError") |}
  ∧ (∃ pre post,
       trace_of (script broken_stream_world initial_state)
       = pre ++ turn_prefix "hi" ++ post
       ∧ Forall (λ e, query_event e = false) pre)
  ∧ ∀ e,
      (query broken_stream_world demo_engine "hi" = Raise e
       ∨ ∃ fragments,
           query broken_stream_world demo_engine "hi"
           = Ok {| response_gen := fragments; gen_raises := Some e |}) →
      res_of (script broken_stream_world initial_state) = Raise e
      ∧ messages (state_of (script broken_stream_world initial_state))
        = Some (transcript initial_state ++ [user_turn "hi"])
      ∧ last (transcript initial_state ++ [user_turn "hi"]) = Some (user_turn "hi").
Proof.
  split; [reflexivity|].
  apply (user_turn_survives_failed_query broken_stream_world initial_state
           (Some "gsk_live") demo_engine "hi").
  - reflexivity.
  - reflexivity.
  - apply elem_of_dom. exists "a1b2". reflexivity.
  - reflexivity.
  - reflexivity.
  - discriminate.
Defined.

(** ** The transcript over a session *)

Lemma submitted_unresolved (w : World) (s : State) (e : exn) :
  res_of (resolve_GROQ_API_KEY w s) = Raise e → submitted w s = false.
Proof. intros H. unfold submitted. by rewrite H. Qed.

Lemma submitted_resolved (w : World) (s : State) (key : option string) :
  res_of (resolve_GROQ_API_KEY w s) = Ok key →
  submitted w s
  = truthy key && bool_decide ("session_id" ∈ dom (query_params w))
      && truthy (chat_input w).
Proof. intros H. unfold submitted. by rewrite H. Qed.

(** What one execution does to the transcript: nothing, or it seeds it and
    adds [extra] turns; an execution that ends normally adds the two turns of
    a pair when a prompt was submitted and nothing otherwise. *)
Lemma script_effect (w : World) (s : State) :
  ∃ extra,
    (messages (state_of (script w s)) = messages s ∧ extra = []
     ∨ messages (state_of (script w s)) = Some (transcript s ++ extra))
    ∧ (res_of (script w s) = Ok tt →
       if submitted w s
       then messages (state_of (script w s)) = Some (transcript s ++ extra)
            ∧ ∃ p r, extra = [user_turn p; assistant_turn r]
       else extra = []).
Proof.
  destruct (res_of (resolve_GROQ_API_KEY w s)) as [key|e] eqn:Hr.
  2: { exists []. rewrite (script_unresolved w s e Hr), (submitted_unresolved w s e Hr).
       split; [by left | done]. }
  rewrite (submitted_resolved w s key Hr).
  destruct (truthy key) eqn:Hk.
  2: { exists []. rewrite (script_resolved w s key Hr), (app_falsy w s key Hk).
       split; [by left | done]. }
  destruct (query_params w !! "session_id") as [v|] eqn:Hq.
  2: { exists []. rewrite (script_resolved w s key Hr), (app_denied w s key Hq).
       rewrite bool_decide_eq_false_2 by by apply not_elem_of_dom.
       split; [by left | done]. }
  assert (Hin : "session_id" ∈ dom (query_params w)) by (apply elem_of_dom; eauto).
  rewrite (script_chat w s key Hr Hk Hin), (bool_decide_eq_true_2 _ Hin). simpl.
  destruct (load_query_engine w key s) as [[[engine|e] s1] t1] eqn:El.
  2: { exists []. rewrite (chat_engine_failed _ _ _ _ _ _ El).
       destruct (load_messages _ _ _ _ _ _ El) as [Hm _].
       unfold res_of, state_of. simpl. split; [by left | done]. }
  destruct (load_messages _ _ _ _ _ _ El) as [_ Ht].
  pose proof (messages_ensure s1) as Hm.
  destruct (truthy (chat_input w)) eqn:Hi.
  2: { exists []. rewrite (chat_idle _ _ _ _ _ _ El Hi).
       unfold res_of, state_of. simpl. rewrite Hm, Ht, app_nil_r.
       split; [by right | done]. }
  destruct (truthy_inv _ Hi) as (p & Hp & Hne).
  rewrite (chat_turn _ _ _ _ _ _ _ El Hp Hne).
  destruct (query w engine p) as [[fragments [e|]]|e] eqn:Eq.
  - exists [user_turn p]. rewrite (turn_stream_raises _ _ _ _ _ _ _ Hm Eq).
    unfold res_of, state_of. simpl. rewrite messages_set_messages, Ht.
    split; [by right | done].
  - exists [user_turn p; assistant_turn (concat_fragments fragments)].
    rewrite (turn_completes _ _ _ _ _ _ Hm Eq).
    unfold res_of, state_of. simpl. rewrite messages_set_messages, Ht.
    split; [by right |]. intros _. split; [done | eauto].
  - exists [user_turn p]. rewrite (turn_query_raises _ _ _ _ _ _ Hm Eq).
    unfold res_of, state_of. simpl. rewrite messages_set_messages, Ht.
    split; [by right | done].
Qed.

(** A stored transcript starts with the seeded greeting. *)
Lemma seeded_step (w : World) (s : State) :
  (∀ l, messages s = Some l → ∃ rest, l = greeting :: rest) →
  ∀ l, messages (state_of (script w s)) = Some l → ∃ rest, l = greeting :: rest.
Proof.
  intros Hinv l Hl. destruct (script_effect w s) as (extra & [[Hsame _] | Hgrow] & _).
  - apply Hinv. by rewrite <- Hsame.
  - rewrite Hgrow in Hl. injection Hl as <-. unfold transcript.
    destruct (messages s) as [l0|] eqn:Hm; simpl.
    + destruct (Hinv l0 eq_refl) as [rest ->]. by eexists.
    + by eexists.
Qed.

Lemma seeded_session (ws : list World) (s : State) :
  (∀ l, messages s = Some l → ∃ rest, l = greeting :: rest) →
  ∀ l, messages (run_session ws s) = Some l → ∃ rest, l = greeting :: rest.
Proof.
  revert s. induction ws as [|w ws IH]; intros s Hinv; simpl; [done|].
  apply IH. by apply seeded_step.
Qed.

Lemma counted_step (w : World) (s : State) (k : nat) :
  counted s k →
  res_of (script w s) = Ok tt →
  counted (state_of (script w s)) (k + (if completed w s then 1 else 0)).
Proof.
  intros Hc Hok. unfold completed. rewrite Hok. simpl. rewrite andb_true_r.
  assert (Hlen : length (transcript s) = 1 + 2 * k).
  { unfold counted, transcript in *. destruct (messages s); simpl; [done | by subst]. }
  destruct (script_effect w s) as (extra & Hcases & Hdone).
  specialize (Hdone Hok). destruct (submitted w s).
  - destruct Hdone as (Hm & p & r & ->). unfold counted. rewrite Hm.
    rewrite length_app, Hlen. simpl. lia.
  - subst extra. rewrite Nat.add_0_r. destruct Hcases as [[Hsame _] | Hgrow].
    + unfold counted in *. by rewrite Hsame.
    + unfold counted. rewrite Hgrow, app_nil_r. done.
Qed.

Lemma counted_session (ws : list World) (s : State) (k : nat) :
  counted s k →
  all_succeed ws s →
  counted (run_session ws s) (k + completed_pairs ws s).
Proof.
  revert s k. induction ws as [|w ws IH]; intros s k Hc Hall; simpl.
  - by rewrite Nat.add_0_r.
  - destruct Hall as [Hok Hall]. rewrite Nat.add_assoc.
    apply IH; [by apply counted_step | done].
Qed.

(** C1: in a session that starts without a transcript, a transcript that
    exists is never empty: it starts with the seeded greeting; and when every
    execution of the session ran to its end, of which [K] took a prompt and
    completed a user/assistant pair, the transcript has [1 + 2 * K] turns (and
    [K = 0] as long as no execution got past the gates). *)
Theorem transcript_length (ws : list World) (s : State) :
  messages s = None →
  (∀ l, messages (run_session ws s) = Some l → l ≠ [] ∧ ∃ rest, l = greeting :: rest)
  ∧ (all_succeed ws s →
     match messages (run_session ws s) with
     | Some l => length l = 1 + 2 * completed_pairs ws s
     | None => completed_pairs ws s = 0
     end).
Proof.
  intros Hm. split.
  - intros l Hl.
    destruct (seeded_session ws s) with (l := l) as [rest ->]; [|done|].
    + intros l0 Hl0. congruence.
    + split; [done | by eexists].
  - intros Hall.
    assert (Hc : counted s 0) by (unfold counted; by rewrite Hm).
    apply (counted_session ws s 0 Hc Hall).
Qed.

Lemma transcript_length_witness :
  all_succeed demo_session initial_state
  ∧ completed_pairs demo_session initial_state = 3
  ∧ (∀ l, messages (run_session demo_session initial_state) = Some l →
          l ≠ [] ∧ ∃ rest, l = greeting :: rest)
  ∧ (all_succeed demo_session initial_state →
     match messages (run_session demo_session initial_state) with
     | Some l => length l = 1 + 2 * completed_pairs demo_session initial_state
     | None => completed_pairs demo_session initial_state = 0
     end).
Proof.
  split; [by vm_compute|]. split; [by vm_compute|].
  apply (transcript_length demo_session initial_state). reflexivity.
Defined.

(** A turn whose stream broke leaves its user turn behind: after the retry the
    transcript has four turns for one completed pair. *)
Example retry_keeps_the_lone_user_turn :
  messages (run_session retry_session initial_state)
  = Some [greeting; user_turn "hi"; user_turn "hi"; assistant_turn "Hello world"]
  ∧ completed_pairs retry_session initial_state = 1.
Proof. split; reflexivity. Qed.


(** * Further properties of the script *)

(** ** Lines 15-18: an exception the handler does not name *)

(** An exception of [st.secrets] that is neither a [KeyError] nor a
    [FileNotFoundError] is not caught: the execution ends with it at line 16,
    before the environment is read and before anything is drawn, the stores
    are untouched, and the session goes on with the next execution. *)
Theorem unexpected_secret_error_propagates (w : World) (s : State) (cls : string) :
  secrets w "GROQ_API_KEY" = Raise (OtherException cls) →
  script w s = (Raise (OtherException cls), s, [EvSecrets "GROQ_API_KEY"])
  ∧ ∀ ws, run_session (w :: ws) s = run_session ws s.
Proof.
  intros H.
  assert (Hs : script w s
               = (Raise (OtherException cls), s, [EvSecrets "GROQ_API_KEY"])).
  { rewrite (script_unresolved w s (OtherException cls)).
    - by rewrite (resolve_propagates _ _ _ H).
    - by rewrite (resolve_propagates _ _ _ H). }
  split; [done|]. intros ws. simpl. by rewrite Hs.
Qed.

Lemma unexpected_secret_error_propagates_witness :
  script unreadable_secrets_world initial_state
  = (Raise (OtherException "PermissionError"), initial_state,
     [EvSecrets "GROQ_API_KEY"])
  ∧ ∀ ws, run_session (unreadable_secrets_world :: ws) initial_state
          = run_session ws initial_state.
Proof.
  apply (unexpected_secret_error_propagates unreadable_secrets_world initial_state
           "PermissionError").
  reflexivity.
Defined.

(** ** Line 81: an empty prompt *)

(** A chat input that returns the empty string is handled as one that returns
    nothing: the execution is the same, call for call, and no turn is taken. *)
Theorem empty_prompt_is_no_prompt (w : World) (s : State) :
  script (with_chat_input (Some "") w) s = script (with_chat_input None w) s.
Proof. reflexivity. Qed.

(** ** Lines 94-98: what the response container shows *)

Lemma displayed_prefixes (acc : string) (gen : list string) :
  displayed acc gen
  = (λ k, EvContainerMarkdown (acc +:+ concat_fragments (take (S k) gen)))
      <$> seq 0 (length gen).
Proof.
  revert acc. induction gen as [|text rest IH]; intros acc; [reflexivity|].
  simpl. f_equal.
  - unfold concat_fragments. simpl. by rewrite append_nil_r.
  - rewrite IH, <- fmap_S_seq, <- list_fmap_compose.
    apply list_fmap_ext. intros i k _. simpl. f_equal.
    change (concat_fragments (text :: take (S k) rest))
      with (text +:+ concat_fragments (take (S k) rest)).
    by rewrite append_assoc.
Qed.

(** Every fragment of the stream redraws the response container once, with
    the concatenation of the fragments received so far; this holds as well for
    a stream that raises in the end, whose partial text was drawn although it
    is never committed. *)
Theorem container_shows_every_prefix (gen : list string) (raises : option exn)
    (s : State) :
  trace_of (consume gen raises "" s)
  = (λ k, EvContainerMarkdown (concat_fragments (take (S k) gen)))
      <$> seq 0 (length gen).
Proof.
  rewrite consume_spec. unfold trace_of. simpl. by rewrite displayed_prefixes.
Qed.

(** ** Lines 36-56 and 69: building, failing, reusing *)

Lemma load_no_turn (w : World) (key : option string) (s : State) :
  Forall (λ e, turn_event e = false) (trace_of (load_query_engine w key s)).
Proof.
  destruct (resource_cache s) as [engine|] eqn:Hc.
  { rewrite (load_cached _ _ _ _ Hc). repeat constructor. }
  destruct (load_data w DATA_PATH) as [documents|e] eqn:Hl.
  2: { rewrite (load_no_documents _ _ _ _ Hc Hl). repeat constructor. }
  destruct (from_documents w documents) as [idx|e] eqn:Hi.
  - rewrite (load_built _ _ _ _ _ Hc Hl Hi). repeat constructor.
  - rewrite (load_no_index _ _ _ _ _ Hc Hl Hi). repeat constructor.
Qed.

(** Once the engine is there, the rest of lines 69-101 adds to the trace and
    leaves the process-wide stores alone. *)
Lemma chat_after_load (w : World) (key : option string) (s s1 : State)
    (engine : QueryEngine) (t1 : list event) :
  load_query_engine w key s = (Ok engine, s1, t1) →
  ∃ rest,
    trace_of (chat w key s) = t1 ++ rest
    ∧ resource_cache (state_of (chat w key s)) = resource_cache s1
    ∧ Settings_llm (state_of (chat w key s)) = Settings_llm s1.
Proof.
  intros El. pose proof (messages_ensure s1) as Hm.
  assert (He : resource_cache (ensure_messages s1) = resource_cache s1
               ∧ Settings_llm (ensure_messages s1) = Settings_llm s1).
  { unfold ensure_messages. by destruct (messages s1). }
  destruct He as [Hec Hes].
  destruct (truthy (chat_input w)) eqn:Hi.
  2: { rewrite (chat_idle _ _ _ _ _ _ El Hi). eexists. split; [reflexivity|].
       unfold state_of. simpl. done. }
  destruct (truthy_inv _ Hi) as (p & Hp & Hne).
  rewrite (chat_turn _ _ _ _ _ _ _ El Hp Hne).
  unfold trace_of at 1, state_of at 1 3. simpl.
  destruct (query w engine p) as [[fragments [e|]]|e] eqn:Eq.
  - rewrite (turn_stream_raises _ _ _ _ _ _ _ Hm Eq). eexists.
    split; [reflexivity|]. unfold state_of. simpl. done.
  - rewrite (turn_completes _ _ _ _ _ _ Hm Eq). eexists.
    split; [reflexivity|]. unfold state_of. simpl. done.
  - rewrite (turn_query_raises _ _ _ _ _ _ Hm Eq). eexists.
    split; [reflexivity|]. unfold state_of. simpl. done.
Qed.

Lemma load_failed (w : World) (key : option string) (s : State) (e : exn) :
  res_of (load_query_engine w key s) = Raise e →
  resource_cache (state_of (load_query_engine w key s)) = None
  ∧ chat w key s
    = (Raise e, state_of (load_query_engine w key s),
       trace_of (load_query_engine w key s)).
Proof.
  intros Hfail. split.
  - destruct (resource_cache s) as [engine|] eqn:Hc.
    { rewrite (load_cached _ _ _ _ Hc) in Hfail. discriminate. }
    destruct (load_data w DATA_PATH) as [documents|e1] eqn:Hl.
    2: { by rewrite (load_no_documents _ _ _ _ Hc Hl). }
    destruct (from_documents w documents) as [idx|e2] eqn:Hi.
    + rewrite (load_built _ _ _ _ _ Hc Hl Hi) in Hfail. discriminate.
    + by rewrite (load_no_index _ _ _ _ _ Hc Hl Hi).
  - destruct (load_query_engine w key s) as [[r s1] t1] eqn:Hl.
    unfold res_of in Hfail. simpl in Hfail. subst r.
    by rewrite (chat_engine_failed _ _ _ _ _ _ Hl).
Qed.

Section PastGates.

(** An execution whose credential is truthy and whose request carries
    [session_id]. *)
Context (w : World) (s : State) (key : option string).
Hypothesis resolved : res_of (resolve_GROQ_API_KEY w s) = Ok key.
Hypothesis key_truthy : truthy key = true.
Hypothesis has_session_id : "session_id" ∈ dom (query_params w).

(** When the engine cannot be obtained (line 69 raises), the execution ends
    there with that exception: nothing of the turn loop runs, so a prompt
    submitted with this page load is neither echoed nor stored, the session
    state is as before and the cache stays empty. *)
Theorem build_failure_drops_prompt (e : exn) :
  res_of (load_query_engine w key s) = Raise e →
  res_of (script w s) = Raise e
  ∧ session_state (state_of (script w s)) = session_state s
  ∧ resource_cache (state_of (script w s)) = None
  ∧ Forall (λ ev, turn_event ev = false) (trace_of (script w s)).
Proof.
  intros Hfail. rewrite (script_chat w s key resolved key_truthy has_session_id).
  destruct (load_failed w key s e Hfail) as [Hnone Hchat].
  rewrite Hchat. unfold res_of at 1, state_of, trace_of at 1 3. simpl.
  split; [done|]. split; [apply load_session|]. split; [done|].
  apply Forall_app_2.
  - eapply Forall_impl; [apply resolve_no_engine|]. by intros ev [_ ?].
  - repeat (constructor; [reflexivity|]). apply load_no_turn.
Qed.

(** The first execution past the gates in a process builds the engine: it
    loads the documents of [DATA_PATH], creates the client with the resolved
    key, model [llama3-8b-8192] and temperature 0.7, indexes the documents and
    asks for a streaming query engine, in this order; the engine is cached and
    the client is the process-wide [Settings.llm] when the execution ends,
    however the turn that follows goes. *)
Theorem first_execution_builds_engine (documents : list Document)
    (idx : VectorStoreIndex) :
  resource_cache s = None →
  load_data w DATA_PATH = Ok documents →
  from_documents w documents = Ok idx →
  (∃ rest,
     trace_of (script w s)
     = trace_of (resolve_GROQ_API_KEY w s) ++ page_events
         ++ (EvCacheLookup :: build_events key documents) ++ rest)
  ∧ resource_cache (state_of (script w s))
    = Some {| index := idx; streaming := true |}
  ∧ Settings_llm (state_of (script w s)) = Some (groq_client key).
Proof.
  intros Hc Hl Hi. rewrite (script_chat w s key resolved key_truthy has_session_id).
  destruct (chat_after_load _ _ _ _ _ _ (load_built _ key _ _ _ Hc Hl Hi))
    as (rest & Ht & Hcache & Hllm).
  destruct (chat w key s) as [[r s2] t2].
  unfold state_of, trace_of in *. simpl in *. subst t2.
  split; [by exists rest|]. by rewrite Hcache, Hllm.
Qed.

(** When the index cannot be built, line 50 has already run: the execution
    ends with the exception of [from_documents], the cache stays empty, and
    [Settings.llm] holds the new client from then on. *)
Theorem failed_index_build_keeps_llm_setting (documents : list Document) (e : exn) :
  resource_cache s = None →
  load_data w DATA_PATH = Ok documents →
  from_documents w documents = Raise e →
  script w s
  = (Raise e, set_Settings_llm (Some (groq_client key)) s,
     trace_of (resolve_GROQ_API_KEY w s) ++ page_events
       ++ EvCacheLookup :: take 3 (build_events key documents)).
Proof.
  intros Hc Hl Hi. rewrite (script_chat w s key resolved key_truthy has_session_id).
  by rewrite (chat_engine_failed _ _ _ _ _ _ (load_no_index _ key _ _ _ Hc Hl Hi)).
Qed.

End PastGates.

Lemma build_failure_drops_prompt_witness :
  chat_input broken_corpus_world = Some "hi"
  ∧ res_of (script broken_corpus_world initial_state) = Raise FileNotFoundError
  ∧ session_state (state_of (script broken_corpus_world initial_state))
    = session_state initial_state
  ∧ resource_cache (state_of (script broken_corpus_world initial_state)) = None
  ∧ Forall (λ ev, turn_event ev = false)
           (trace_of (script broken_corpus_world initial_state)).
Proof.
  split; [reflexivity|].
  apply (build_failure_drops_prompt broken_corpus_world initial_state
           (Some "gsk_live")).
  - reflexivity.
  - reflexivity.
  - apply elem_of_dom. exists "a1b2". reflexivity.
  - reflexivity.
Defined.

Lemma first_execution_builds_engine_witness :
  (∃ rest,
     trace_of (script demo_world initial_state)
     = trace_of (resolve_GROQ_API_KEY demo_world initial_state) ++ page_events
         ++ (EvCacheLookup :: build_events (Some "gsk_live") ["refund policy"])
         ++ rest)
  ∧ resource_cache (state_of (script demo_world initial_state)) = Some demo_engine
  ∧ Settings_llm (state_of (script demo_world initial_state))
    = Some (groq_client (Some "gsk_live")).
Proof.
  apply (first_execution_builds_engine demo_world initial_state (Some "gsk_live")).
  - reflexivity.
  - reflexivity.
  - apply elem_of_dom. exists "a1b2". reflexivity.
  - reflexivity.
  - reflexivity.
  - reflexivity.
Defined.

Lemma failed_index_build_keeps_llm_setting_witness :
  script broken_index_world initial_state
  = (Raise (OtherException "ConnectionError"),
     set_Settings_llm (Some (groq_client (Some "gsk_live"))) initial_state,
     trace_of (resolve_GROQ_API_KEY broken_index_world initial_state) ++ page_events
       ++ EvCacheLookup
            :: take 3 (build_events (Some "gsk_live") ["refund policy"])).
Proof.
  apply (failed_index_build_keeps_llm_setting broken_index_world initial_state
           (Some "gsk_live")).
  - reflexivity.
  - reflexivity.
  - apply elem_of_dom. exists "a1b2". reflexivity.
  - reflexivity.
  - reflexivity.
  - reflexivity.
Defined.

Lemma engine_is_built_once_witness :
  load_query_engine broken_index_world None
    (state_of (load_query_engine demo_world (Some "gsk_live") initial_state))
  = (Ok demo_engine,
     state_of (load_query_engine demo_world (Some "gsk_live") initial_state),
     [EvCacheLookup]).
Proof.
  apply (engine_is_built_once demo_world (Some "gsk_live") initial_state demo_engine).
  reflexivity.
Defined.

Lemma script_keeps_engine (w : World) (s : State) (engine : QueryEngine) :
  resource_cache s = Some engine →
  resource_cache (state_of (script w s)) = Some engine
  ∧ Settings_llm (state_of (script w s)) = Settings_llm s.
Proof.
  intros Hc.
  destruct (res_of (resolve_GROQ_API_KEY w s)) as [key|e] eqn:Hr.
  2: { by rewrite (script_unresolved w s e Hr). }
  rewrite (script_resolved w s key Hr). unfold state_of at 1 3. simpl.
  destruct (truthy key) eqn:Hk.
  2: { by rewrite (app_falsy w s key Hk). }
  destruct (query_params w !! "session_id") as [v|] eqn:Hq.
  2: { by rewrite (app_denied w s key Hq). }
  rewrite (app_allowed w s key Hk) by eauto.
  destruct (chat_after_load _ _ _ _ _ _ (load_cached w key s engine Hc))
    as (rest & _ & Hcache & Hllm).
  by rewrite Hcache, Hllm.
Qed.

(** The script never evicts or replaces a cached engine and, once the engine is
    cached, never reconfigures [Settings.llm]: both are the same after any
    number of executions, whatever their surroundings (a changed credential
    included). *)
Theorem cached_engine_is_never_evicted (ws : list World) (s : State)
    (engine : QueryEngine) :
  resource_cache s = Some engine →
  resource_cache (run_session ws s) = Some engine
  ∧ Settings_llm (run_session ws s) = Settings_llm s.
Proof.
  revert s. induction ws as [|w ws IH]; intros s Hc; simpl; [done|].
  destruct (script_keeps_engine w s engine Hc) as [Hc1 Hl1].
  destruct (IH _ Hc1) as [Hc2 Hl2]. by rewrite Hc2, Hl2.
Qed.

Lemma cached_engine_is_never_evicted_witness :
  resource_cache
    (run_session [broken_index_world; no_credential_world; broken_stream_world]
       warm_state)
  = Some demo_engine
  ∧ Settings_llm
      (run_session [broken_index_world; no_credential_world; broken_stream_world]
         warm_state)
    = Settings_llm warm_state.
Proof.
  apply (cached_engine_is_never_evicted
           [broken_index_world; no_credential_world; broken_stream_world]
           warm_state demo_engine).
  reflexivity.
Defined.


(** ** Lines 69-81: a page load without a prompt *)

Lemma resolve_res_indep (w : World) (s s' : State) :
  res_of (resolve_GROQ_API_KEY w s) = res_of (resolve_GROQ_API_KEY w s').
Proof.
  destruct (secrets w "GROQ_API_KEY") as [v | [| |cls]] eqn:H.
  - by rewrite !(resolve_found _ _ _ H).
  - rewrite !(resolve_fallback _ _ _ H); auto.
  - rewrite !(resolve_fallback _ _ _ H); auto.
  - by rewrite !(resolve_propagates _ _ _ H).
Qed.

Lemma ensure_messages_cache (s : State) :
  resource_cache (ensure_messages s) = resource_cache s.
Proof. unfold ensure_messages. by destruct (messages s). Qed.

Lemma ensure_messages_idem (s : State) :
  ensure_messages (ensure_messages s) = ensure_messages s.
Proof.
  unfold ensure_messages at 1. by rewrite messages_ensure.
Qed.

Lemma chat_idle_twice (w : World) (key : option string) (s : State) :
  truthy (chat_input w) = false →
  state_of (chat w key (state_of (chat w key s))) = state_of (chat w key s)
  ∧ res_of (chat w key (state_of (chat w key s))) = res_of (chat w key s).
Proof.
  intros Hi.
  assert (Hhit : ∀ engine s0, resource_cache s0 = Some engine →
            chat w key (ensure_messages s0)
            = (Ok tt, ensure_messages s0,
               [EvCacheLookup] ++ rendered (transcript (ensure_messages s0))
                 ++ [EvChatInput "Ask me anything..."])).
  { intros engine s0 Hc.
    assert (Hc' : resource_cache (ensure_messages s0) = Some engine)
      by by rewrite ensure_messages_cache.
    rewrite (chat_idle _ _ _ _ _ _ (load_cached w key _ engine Hc') Hi).
    by rewrite ensure_messages_idem. }
  destruct (resource_cache s) as [engine|] eqn:Hc.
  { rewrite (chat_idle _ _ _ _ _ _ (load_cached w key s engine Hc) Hi).
    proj. by rewrite (Hhit engine s Hc). }
  destruct (load_data w DATA_PATH) as [documents|e] eqn:Hl.
  2: { rewrite (chat_engine_failed _ _ _ _ _ _ (load_no_documents w key s e Hc Hl)).
       proj.
       by rewrite (chat_engine_failed _ _ _ _ _ _ (load_no_documents w key s e Hc Hl)). }
  destruct (from_documents w documents) as [idx|e] eqn:Hx.
  - rewrite (chat_idle _ _ _ _ _ _ (load_built w key s documents idx Hc Hl Hx) Hi).
    proj.
    by rewrite (Hhit {| index := idx; streaming := true |}).
  - rewrite (chat_engine_failed _ _ _ _ _ _ (load_no_index w key s documents e Hc Hl Hx)).
    proj.
    by rewrite (chat_engine_failed _ _ _ _ _ _
                  (load_no_index w key (set_Settings_llm _ s) documents e Hc Hl Hx)).
Qed.

(** A page load without a prompt (the input returned nothing, or the empty
    string) can be repeated at will: with the same surroundings, the second
    execution ends as the first did and leaves the stores exactly as the first
    left them, so re-rendering never grows the transcript. *)
Theorem rerender_is_idempotent (w : World) (s : State) :
  truthy (chat_input w) = false →
  state_of (script w (state_of (script w s))) = state_of (script w s)
  ∧ res_of (script w (state_of (script w s))) = res_of (script w s).
Proof.
  intros Hi.
  destruct (res_of (resolve_GROQ_API_KEY w s)) as [key|e] eqn:Hr.
  2: { rewrite (script_unresolved w s e Hr). proj. by rewrite (script_unresolved w s e Hr). }
  assert (Hr' : ∀ s', res_of (resolve_GROQ_API_KEY w s') = Ok key).
  { intros s'. by rewrite (resolve_res_indep w s' s). }
  rewrite (script_resolved w s key Hr).
  proj.
  rewrite (script_resolved w _ key (Hr' _)).
  proj.
  destruct (truthy key) eqn:Hk.
  2: { rewrite (app_falsy w s key Hk). proj.
       by rewrite (app_falsy w s key Hk). }
  destruct (query_params w !! "session_id") as [v|] eqn:Hq.
  2: { rewrite (app_denied w s key Hq). proj.
       by rewrite (app_denied w s key Hq). }
  rewrite (app_allowed w s key Hk) by eauto.
  rewrite (app_allowed w _ key Hk) by eauto.
  apply chat_idle_twice, Hi.
Qed.

Lemma rerender_is_idempotent_witness :
  state_of (script (with_chat_input (Some "") demo_world)
              (state_of (script (with_chat_input (Some "") demo_world) initial_state)))
  = state_of (script (with_chat_input (Some "") demo_world) initial_state)
  ∧ res_of (script (with_chat_input (Some "") demo_world)
              (state_of (script (with_chat_input (Some "") demo_world) initial_state)))
    = res_of (script (with_chat_input (Some "") demo_world) initial_state).
Proof.
  apply (rerender_is_idempotent (with_chat_input (Some "") demo_world) initial_state).
  reflexivity.
Defined.

(** ** Lines 71-101: the shape of the transcript *)

(** What one execution adds to the transcript, whether or not it ends
    normally: nothing, a user turn, or a user turn and its answer. *)
Lemma script_appends (w : World) (s : State) :
  ∃ extra,
    (messages (state_of (script w s)) = messages s ∧ extra = []
     ∨ messages (state_of (script w s)) = Some (transcript s ++ extra))
    ∧ (extra = [] ∨ turn_block extra).
Proof.
  destruct (res_of (resolve_GROQ_API_KEY w s)) as [key|e] eqn:Hr.
  2: { exists []. rewrite (script_unresolved w s e Hr). split; [by left | by left]. }
  destruct (truthy key) eqn:Hk.
  2: { exists []. rewrite (script_resolved w s key Hr), (app_falsy w s key Hk).
       split; [by left | by left]. }
  destruct (query_params w !! "session_id") as [v|] eqn:Hq.
  2: { exists []. rewrite (script_resolved w s key Hr), (app_denied w s key Hq).
       split; [by left | by left]. }
  assert (Hin : "session_id" ∈ dom (query_params w)) by (apply elem_of_dom; eauto).
  rewrite (script_chat w s key Hr Hk Hin).
  destruct (load_query_engine w key s) as [[[engine|e] s1] t1] eqn:El.
  2: { exists []. rewrite (chat_engine_failed _ _ _ _ _ _ El).
       destruct (load_messages _ _ _ _ _ _ El) as [Hm _].
       proj. split; [by left | by left]. }
  destruct (load_messages _ _ _ _ _ _ El) as [_ Ht].
  pose proof (messages_ensure s1) as Hm.
  destruct (truthy (chat_input w)) eqn:Hi.
  2: { exists []. rewrite (chat_idle _ _ _ _ _ _ El Hi). proj.
       rewrite Hm, Ht, app_nil_r. split; [by right | by left]. }
  destruct (truthy_inv _ Hi) as (p & Hp & Hne).
  rewrite (chat_turn _ _ _ _ _ _ _ El Hp Hne).
  destruct (query w engine p) as [[fragments [e|]]|e] eqn:Eq.
  - exists [user_turn p]. rewrite (turn_stream_raises _ _ _ _ _ _ _ Hm Eq). proj.
    rewrite messages_set_messages, Ht. split; [by right|]. right. left. eauto.
  - exists [user_turn p; assistant_turn (concat_fragments fragments)].
    rewrite (turn_completes _ _ _ _ _ _ Hm Eq). proj.
    rewrite messages_set_messages, Ht. split; [by right|]. right. right. eauto.
  - exists [user_turn p]. rewrite (turn_query_raises _ _ _ _ _ _ Hm Eq). proj.
    rewrite messages_set_messages, Ht. split; [by right|]. right. left. eauto.
Qed.

(** The transcript is append-only: whatever executions follow, with whatever
    outcome, the turns already stored stay where they are, unchanged, and new
    turns come after them. *)
Theorem transcript_is_append_only (ws : list World) (s : State) (l : list ChatTurn) :
  messages s = Some l →
  ∃ extra, messages (run_session ws s) = Some (l ++ extra).
Proof.
  revert s l. induction ws as [|w ws IH]; intros s l Hm; simpl.
  - exists []. by rewrite app_nil_r.
  - destruct (script_appends w s) as (extra & [[Hsame _] | Hgrow] & _).
    + apply IH. by rewrite Hsame.
    + unfold transcript in Hgrow. rewrite Hm in Hgrow. simpl in Hgrow.
      destruct (IH _ _ Hgrow) as [extra' Hfin].
      exists (extra ++ extra'). by rewrite Hfin, app_assoc.
Qed.

Lemma transcript_is_append_only_witness :
  ∃ extra,
    messages (run_session retry_session (set_messages [greeting] initial_state))
    = Some ([greeting] ++ extra).
Proof.
  apply (transcript_is_append_only retry_session
           (set_messages [greeting] initial_state) [greeting]).
  reflexivity.
Defined.

Lemma blocks_step (w : World) (s : State) :
  (∀ l, messages s = Some l →
        ∃ blocks, l = greeting :: concat blocks ∧ Forall turn_block blocks) →
  ∀ l, messages (state_of (script w s)) = Some l →
       ∃ blocks, l = greeting :: concat blocks ∧ Forall turn_block blocks.
Proof.
  intros Hinv l Hl.
  destruct (script_appends w s) as (extra & [[Hsame _] | Hgrow] & Hshape).
  { apply Hinv. by rewrite <- Hsame. }
  rewrite Hgrow in Hl. injection Hl as <-.
  assert (Hold : ∃ blocks, transcript s = greeting :: concat blocks
                           ∧ Forall turn_block blocks).
  { unfold transcript. destruct (messages s) as [l0|] eqn:Hm; simpl.
    - by apply Hinv.
    - exists []. by split. }
  destruct Hold as (blocks & -> & Hb).
  destruct Hshape as [-> | Hblock].
  - exists blocks. by rewrite app_nil_r.
  - exists (blocks ++ [extra]). split.
    + rewrite concat_app. simpl. by rewrite app_nil_r.
    + apply Forall_app_2; [done | by constructor].
Qed.

(** In a session that starts without a transcript, every transcript is the
    seeded greeting followed by blocks that are a user turn alone (its query
    failed) or a user turn with its answer: an assistant turn after the
    greeting always directly follows a user turn, and no answer is stored
    twice. *)
Theorem transcript_is_greeting_and_blocks (ws : list World) (s : State)
    (l : list ChatTurn) :
  messages s = None →
  messages (run_session ws s) = Some l →
  ∃ blocks, l = greeting :: concat blocks ∧ Forall turn_block blocks.
Proof.
  intros Hnone. revert l.
  assert (Hinv : ∀ l, messages s = Some l →
            ∃ blocks, l = greeting :: concat blocks ∧ Forall turn_block blocks)
    by (intros l Hl; congruence).
  clear Hnone. revert s Hinv. induction ws as [|w ws IH]; intros s Hinv; simpl.
  - done.
  - apply IH. by apply blocks_step.
Qed.

Lemma transcript_is_greeting_and_blocks_witness :
  ∃ blocks,
    [greeting; user_turn "hi"; user_turn "hi"; assistant_turn "Hello world"]
    = greeting :: concat blocks
    ∧ Forall turn_block blocks.
Proof.
  apply (transcript_is_greeting_and_blocks retry_session initial_state);
    reflexivity.
Defined.

Lemma alternating_S (k : nat) :
  alternating (S k) = alternating k ++ [user; assistant].
Proof.
  unfold alternating. rewrite replicate_S_end, concat_app. reflexivity.
Qed.

Lemma roles_step (w : World) (s : State) (k : nat) :
  roles_counted s k →
  res_of (script w s) = Ok tt →
  roles_counted (state_of (script w s)) (k + (if completed w s then 1 else 0)).
Proof.
  intros Hc Hok. unfold completed. rewrite Hok. simpl. rewrite andb_true_r.
  assert (Hroles : role <$> transcript s = alternating k).
  { unfold roles_counted, transcript in *. destruct (messages s); simpl; [done | by subst]. }
  destruct (script_effect w s) as (extra & Hcases & Hdone).
  specialize (Hdone Hok). destruct (submitted w s).
  - destruct Hdone as (Hm & p & r & ->). unfold roles_counted. rewrite Hm.
    rewrite fmap_app, Hroles, Nat.add_1_r, alternating_S. done.
  - subst extra. rewrite Nat.add_0_r. destruct Hcases as [[Hsame _] | Hgrow].
    + unfold roles_counted in *. by rewrite Hsame.
    + unfold roles_counted. rewrite Hgrow, app_nil_r. done.
Qed.

Lemma roles_session (ws : list World) (s : State) (k : nat) :
  roles_counted s k →
  all_succeed ws s →
  roles_counted (run_session ws s) (k + completed_pairs ws s).
Proof.
  revert s k. induction ws as [|w ws IH]; intros s k Hc Hall; simpl.
  - by rewrite Nat.add_0_r.
  - destruct Hall as [Hok Hall]. rewrite Nat.add_assoc.
    apply IH; [by apply roles_step | done].
Qed.

(** In a session that starts without a transcript and in which every
    execution ends normally, the roles of the transcript alternate: the
    assistant's greeting, then user and assistant in turn, once per completed
    pair. *)
Theorem roles_alternate (ws : list World) (s : State) (l : list ChatTurn) :
  messages s = None →
  all_succeed ws s →
  messages (run_session ws s) = Some l →
  role <$> l = alternating (completed_pairs ws s).
Proof.
  intros Hm Hall Hl.
  assert (Hc : roles_counted s 0) by (unfold roles_counted; by rewrite Hm).
  pose proof (roles_session ws s 0 Hc Hall) as Hfin.
  unfold roles_counted in Hfin. by rewrite Hl in Hfin.
Qed.

Lemma roles_alternate_witness :
  role <$> [greeting; user_turn "hi"; assistant_turn "Hello world";
            user_turn "hi"; assistant_turn "Hello world";
            user_turn "hi"; assistant_turn "Hello world"]
  = alternating (completed_pairs demo_session initial_state).
Proof.
  apply (roles_alternate demo_session initial_state).
  - reflexivity.
  - by vm_compute.
  - reflexivity.
Defined.


(** ** Lines 15-18 and 60: where the credential comes from *)

(** A credential taken from the environment, after the secret store raised
    one of the two exceptions of line 17, is used exactly as the same value
    from the secret store would be: the execution ends the same way with the
    same stores, and makes the same calls after the extra [os.getenv]. *)
Theorem environment_fallback_is_used (w : World) (s : State) (e : exn) (v : string) :
  e = KeyError ∨ e = FileNotFoundError →
  environ w !! "GROQ_API_KEY" = Some v →
  res_of (script (with_secrets (λ _, Raise e) w) s)
  = res_of (script (with_secrets (λ _, Ok v) w) s)
  ∧ state_of (script (with_secrets (λ _, Raise e) w) s)
    = state_of (script (with_secrets (λ _, Ok v) w) s)
  ∧ trace_of (script (with_secrets (λ _, Raise e) w) s)
    = EvSecrets "GROQ_API_KEY" :: EvGetenv "GROQ_API_KEY"
        :: drop 1 (trace_of (script (with_secrets (λ _, Ok v) w) s)).
Proof.
  intros He Henv.
  assert (H1 : resolve_GROQ_API_KEY (with_secrets (λ _, Raise e) w) s
               = (Ok (Some v), s,
                  [EvSecrets "GROQ_API_KEY"; EvGetenv "GROQ_API_KEY"])).
  { rewrite (resolve_fallback (with_secrets (λ _, Raise e) w) s e eq_refl He).
    simpl. by rewrite Henv. }
  assert (H2 : resolve_GROQ_API_KEY (with_secrets (λ _, Ok v) w) s
               = (Ok (Some v), s, [EvSecrets "GROQ_API_KEY"])).
  { by rewrite (resolve_found (with_secrets (λ _, Ok v) w) s v eq_refl). }
  rewrite (script_resolved (with_secrets (λ _, Raise e) w) s (Some v))
    by by rewrite H1.
  rewrite (script_resolved (with_secrets (λ _, Ok v) w) s (Some v)) by by rewrite H2.
  rewrite H1, H2. proj. done.
Qed.

Lemma environment_fallback_is_used_witness :
  res_of (script (with_secrets (λ _, Raise KeyError) demo_world) initial_state)
  = res_of (script (with_secrets (λ _, Ok "gsk_local") demo_world) initial_state)
  ∧ state_of (script (with_secrets (λ _, Raise KeyError) demo_world) initial_state)
    = state_of (script (with_secrets (λ _, Ok "gsk_local") demo_world) initial_state)
  ∧ trace_of (script (with_secrets (λ _, Raise KeyError) demo_world) initial_state)
    = EvSecrets "GROQ_API_KEY" :: EvGetenv "GROQ_API_KEY"
        :: drop 1 (trace_of (script (with_secrets (λ _, Ok "gsk_local") demo_world)
                               initial_state)).
Proof.
  apply (environment_fallback_is_used demo_world initial_state KeyError "gsk_local").
  - by left.
  - reflexivity.
Defined.

(** ** Lines 69-81: reloading the page *)

(** Reloading the page of a running chat (engine cached, transcript stored,
    no prompt) redraws the whole transcript, every turn once and in order,
    role first and content second, between the cache lookup and the input
    widget, and changes nothing in the stores. *)
Theorem reload_redraws_history (w : World) (s : State) (key : option string)
    (engine : QueryEngine) (l : list ChatTurn) :
  res_of (resolve_GROQ_API_KEY w s) = Ok key →
  truthy key = true →
  "session_id" ∈ dom (query_params w) →
  resource_cache s = Some engine →
  messages s = Some l →
  truthy (chat_input w) = false →
  script w s
  = (Ok tt, s,
     trace_of (resolve_GROQ_API_KEY w s) ++ page_events ++ [EvCacheLookup]
       ++ rendered l ++ [EvChatInput "Ask me anything..."])
  ∧ length (rendered l) = 2 * length l.
Proof.
  intros Hr Hk Hq Hc Hm Hi. split.
  - rewrite (script_chat w s key Hr Hk Hq).
    rewrite (chat_idle _ _ _ _ _ _ (load_cached w key s engine Hc) Hi). proj.
    unfold ensure_messages, transcript. rewrite Hm. reflexivity.
  - clear. induction l as [|m l IH]; simpl; [done | lia].
Qed.

Lemma reload_redraws_history_witness :
  script (with_chat_input None demo_world)
    (state_of (script demo_world initial_state))
  = (Ok tt, state_of (script demo_world initial_state),
     trace_of (resolve_GROQ_API_KEY (with_chat_input None demo_world)
                 (state_of (script demo_world initial_state)))
       ++ page_events ++ [EvCacheLookup]
       ++ rendered [greeting; user_turn "hi"; assistant_turn "Hello world"]
       ++ [EvChatInput "Ask me anything..."])
  ∧ length (rendered [greeting; user_turn "hi"; assistant_turn "Hello world"])
    = 2 * length [greeting; user_turn "hi"; assistant_turn "Hello world"].
Proof.
  apply (reload_redraws_history (with_chat_input None demo_world)
           (state_of (script demo_world initial_state))
           (Some "gsk_live") demo_engine).
  - reflexivity.
  - reflexivity.
  - apply elem_of_dom. exists "a1b2". reflexivity.
  - reflexivity.
  - reflexivity.
  - reflexivity.
Defined.
